(** * AiResearcher: the four-agent research pipeline, embedded and verified

    A shallow embedding of [src/core/llm.py], [src/core/arxiv.py] and the
    validator, synthesizer and orchestrator of [src/core/research.py].

    Conventions.
    - A Python [str] is a list of code points; the embedding covers the
      code points below 256, so a character is an [ascii].
    - A Python exception is the [Raise] branch of [Exc]; [try]/[except]
      is [catch].
    - A Python [dict] is an association list in insertion order.
    - The network (paper search, language model) and the interpreter's
      built-ins that the code only calls ([json.loads], [str()]) are
      variables of the sections that use them. *)

From Stdlib Require Import List Ascii String ZArith QArith Bool Lia Arith.
From Stdlib Require Import DecimalZ DecimalFacts.
Import ListNotations.

Set Implicit Arguments.
Local Close Scope Q_scope.
Local Open Scope char_scope.
Local Open Scope list_scope.
Local Open Scope nat_scope.

(** ** Python strings *)

Definition str := list ascii.

(** A string literal of the source. *)
Definition py (s : string) : str := list_ascii_of_string s.

Definition ord (c : ascii) : nat := nat_of_ascii c.

(** The double quote, code point 34. *)
Abbreviation dquote := (Ascii false true false false false true false false).

Definition str_eqb (a b : str) : bool :=
  if list_eq_dec ascii_dec a b then true else false.

(** [str.isspace] on one character, which is also what [\s] matches in a
    [str] pattern: 9-13, 28-32, 133 and 160. *)
Definition is_space (c : ascii) : bool :=
  let n := ord c in
  ((9 <=? n) && (n <=? 13)) || ((28 <=? n) && (n <=? 32))
  || (n =? 133) || (n =? 160).

Fixpoint lstrip (s : str) : str :=
  match s with
  | c :: s' => if is_space c then lstrip s' else s
  | [] => []
  end.

Definition rstrip (s : str) : str := rev (lstrip (rev s)).

(** [s.strip()] *)
Definition strip (s : str) : str := rstrip (lstrip s).

(** [s.startswith(p)] *)
Fixpoint startswith (p s : str) : bool :=
  match p, s with
  | [], _ => true
  | a :: p', b :: s' => Ascii.eqb a b && startswith p' s'
  | _ :: _, [] => false
  end.

(** [str.lower] on one character: A-Z, and the Latin-1 capitals 192-222
    except the multiplication sign 215, move up by 32. *)
Definition lower_char (c : ascii) : ascii :=
  let n := ord c in
  if ((65 <=? n) && (n <=? 90))
     || ((192 <=? n) && (n <=? 222) && negb (n =? 215))
  then ascii_of_nat (n + 32) else c.

Definition lower (s : str) : str := map lower_char s.

(** [s.split()]: the maximal runs of non-space characters.  [cur] is the
    run being read, reversed. *)
Fixpoint split_from (cur : str) (s : str) : list str :=
  match s with
  | [] => match cur with [] => [] | _ => [rev cur] end
  | c :: s' =>
      if is_space c
      then match cur with
           | [] => split_from [] s'
           | _ => rev cur :: split_from [] s'
           end
      else split_from (c :: cur) s'
  end.

Definition split (s : str) : list str := split_from [] s.

(** [sep.join(parts)] *)
Fixpoint join (sep : str) (parts : list str) : str :=
  match parts with
  | [] => []
  | [p] => p
  | p :: ps => p ++ sep ++ join sep ps
  end.

Definition newline_str : str := [ascii_of_nat 10].

(** [l[:n]] for any integer [n]: a negative bound counts from the end. *)
Definition slice_to {A} (n : Z) (l : list A) : list A :=
  if (0 <=? n)%Z then firstn (Z.to_nat n) l
  else firstn (List.length l - Z.to_nat (- n)) l.

(** ** Exceptions *)

Inductive pyexn : Type :=
| ValueError | TypeError | AttributeError | JSONDecodeError | RecursionError
| NetworkError | Unsupported.

Inductive Exc (A : Type) : Type :=
| Ret (a : A)
| Raise (e : pyexn).
Arguments Ret {A} a.
Arguments Raise {A} e.

Definition bind {A B} (m : Exc A) (k : A -> Exc B) : Exc B :=
  match m with
  | Ret a => k a
  | Raise e => Raise e
  end.

(** [try: m  except Exception: h] *)
Definition catch {A} (m : Exc A) (h : Exc A) : Exc A :=
  match m with
  | Ret a => Ret a
  | Raise _ => h
  end.

Declare Scope exc_scope.
Delimit Scope exc_scope with exc.
Notation "x <- m ;; k" := (bind m (fun x => k))
  (at level 61, m at next level, right associativity) : exc_scope.
Notation "' p <- m ;; k" := (bind m (fun x => match x with p => k end))
  (at level 61, p pattern, m at next level, right associativity) : exc_scope.
Local Open Scope exc_scope.

(** ** JSON values, which are also the values the pipeline passes around *)

(** A Python [float] is carried as the rational it denotes; the
    non-finite floats are outside the embedding. *)
#[local] Unset Elimination Schemes.
Inductive json : Type :=
| JNull
| JBool (b : bool)
| JInt (z : Z)
| JFloat (q : Q)
| JStr (s : str)
| JArr (l : list json)
| JObj (m : list (str * json)).
#[local] Set Elimination Schemes.

(** Induction on a value, with the hypothesis for every element of an
    array and every member of a mapping. *)
Section JsonInd.
Variable P : json -> Prop.
Hypothesis Hnull : P JNull.
Hypothesis Hbool : forall b, P (JBool b).
Hypothesis Hint : forall z, P (JInt z).
Hypothesis Hfloat : forall q, P (JFloat q).
Hypothesis Hstr : forall s, P (JStr s).
Hypothesis Harr : forall l, Forall P l -> P (JArr l).
Hypothesis Hobj : forall m, Forall (fun kv => P (snd kv)) m -> P (JObj m).

Fixpoint json_ind (v : json) : P v :=
  match v with
  | JNull => Hnull
  | JBool b => Hbool b
  | JInt z => Hint z
  | JFloat q => Hfloat q
  | JStr s => Hstr s
  | JArr l =>
      @Harr l ((fix all (l : list json) : Forall P l :=
               match l with
               | [] => @Forall_nil _ P
               | x :: l' => @Forall_cons _ P x l' (json_ind x) (all l')
               end) l)
  | JObj m =>
      @Hobj m ((fix all (m : list (str * json)) : Forall (fun kv => P (snd kv)) m :=
               match m with
               | [] => @Forall_nil _ (fun kv => P (snd kv))
               | kv :: m' =>
                   @Forall_cons _ (fun kv => P (snd kv)) kv m'
                     (json_ind (snd kv)) (all m')
               end) m)
  end.
End JsonInd.

Definition dict := list (str * json).

(** [d.get(k)], [None] when the key is absent. *)
Fixpoint dict_find (k : str) (d : dict) : option json :=
  match d with
  | [] => None
  | (k', v) :: d' => if str_eqb k k' then Some v else dict_find k d'
  end.

(** [d.get(k, default)] *)
Definition dict_get (k : str) (default : json) (d : dict) : json :=
  match dict_find k d with
  | Some v => v
  | None => default
  end.

(** [k in d] *)
Definition dict_has (k : str) (d : dict) : bool :=
  match dict_find k d with Some _ => true | None => false end.

(** [d[k] = v]: an existing key keeps its place, a new one goes last. *)
Fixpoint dict_set (k : str) (v : json) (d : dict) : dict :=
  match d with
  | [] => [(k, v)]
  | (k', v') :: d' =>
      if str_eqb k k' then (k', v) :: d' else (k', v') :: dict_set k v d'
  end.

(** Truth value of a Python object. *)
Definition truthy (v : json) : bool :=
  match v with
  | JNull => false
  | JBool b => b
  | JInt z => negb (z =? 0)%Z
  | JFloat q => negb (Qeq_bool q 0%Q)
  | JStr s => match s with [] => false | _ => true end
  | JArr l => match l with [] => false | _ => true end
  | JObj m => match m with [] => false | _ => true end
  end.

(** The number a value stands for in a comparison: [bool] is a subclass
    of [int]. *)
Definition as_number (v : json) : option Q :=
  match v with
  | JBool b => Some (if b then 1%Q else 0%Q)
  | JInt z => Some (inject_Z z)
  | JFloat q => Some q
  | _ => None
  end.

(** [a >= b] where [b] is a number: [TypeError] unless [a] is one too. *)
Definition py_ge (a : json) (b : Q) : Exc bool :=
  match as_number a with
  | Some q => Ret (Qle_bool b q)
  | None => Raise TypeError
  end.

(** [str(v)] in a format field: a string shows as itself, another value
    as [py_str] says. *)
Definition to_str (py_str : json -> str) (v : json) : str :=
  match v with
  | JStr s => s
  | _ => py_str v
  end.

(** [v.strip()]: only a string has it. *)
Definition strip_of (v : json) : Exc str :=
  match v with
  | JStr s => Ret (strip s)
  | _ => Raise AttributeError
  end.

(** [v.get(k, default)]: only a mapping has it. *)
Definition get_of (v : json) (k : string) (default : json) : Exc json :=
  match v with
  | JObj d => Ret (dict_get (py k) default d)
  | _ => Raise AttributeError
  end.

(** The items of [v[:n]], for the values that can be sliced. *)
Definition slice_items (n : nat) (v : json) : Exc (list json) :=
  match v with
  | JArr l => Ret (firstn n l)
  | JStr s => Ret (map (fun c => JStr [c]) (firstn n s))
  | _ => Raise TypeError
  end.

(** [v[:n]] as a value. *)
Definition slice_value (n : nat) (v : json) : Exc json :=
  match v with
  | JArr l => Ret (JArr (firstn n l))
  | JStr s => Ret (JStr (firstn n s))
  | _ => Raise TypeError
  end.

(** [len(v)] *)
Definition len_of (v : json) : Exc nat :=
  match v with
  | JArr l => Ret (List.length l)
  | JStr s => Ret (List.length s)
  | JObj d => Ret (List.length d)
  | _ => Raise TypeError
  end.

(** A list comprehension whose body may raise. *)
Fixpoint map_exc {A B} (f : A -> Exc B) (l : list A) : Exc (list B) :=
  match l with
  | [] => Ret []
  | x :: l' => y <- f x ;; ys <- map_exc f l' ;; Ret (y :: ys)
  end.

(** [enumerate(l, start)] *)
Fixpoint enumerate {A} (start : nat) (l : list A) : list (nat * A) :=
  match l with
  | [] => []
  | x :: l' => (start, x) :: enumerate (S start) l'
  end.

(** ** Python's [json] module

    [dumps] is [json.dumps] with its defaults (separators [", "] and
    [": "], [ensure_ascii]); [loads] is [json.loads] with its defaults
    ([strict]).  What a float prints as is the interpreter's [repr], a
    variable here; what the decoder takes from the interpreter (the
    room left under the recursion limit, the limit on the digits of an
    integer, the rounding of a decimal to a float) is an [Interp]. *)

Module PyJson.

Fixpoint show_uint (d : Decimal.uint) : str :=
  match d with
  | Decimal.Nil => []
  | Decimal.D0 d => "0" :: show_uint d
  | Decimal.D1 d => "1" :: show_uint d
  | Decimal.D2 d => "2" :: show_uint d
  | Decimal.D3 d => "3" :: show_uint d
  | Decimal.D4 d => "4" :: show_uint d
  | Decimal.D5 d => "5" :: show_uint d
  | Decimal.D6 d => "6" :: show_uint d
  | Decimal.D7 d => "7" :: show_uint d
  | Decimal.D8 d => "8" :: show_uint d
  | Decimal.D9 d => "9" :: show_uint d
  end.

(** [repr] of an [int]. *)
Definition show_int (z : Z) : str :=
  match Z.to_int z with
  | Decimal.Pos d => show_uint d
  | Decimal.Neg d => "-" :: show_uint d
  end.

Definition hex_char (n : nat) : ascii :=
  if n <? 10 then ascii_of_nat (48 + n) else ascii_of_nat (87 + n).

(** One character of a string under [ensure_ascii]: the printable ASCII
    characters stand for themselves except the quote and the backslash;
    the others are escaped, by name or as [\u00xx]. *)
Definition escape_char (c : ascii) : str :=
  let n := ord c in
  if n =? 34 then ["\"; dquote]
  else if n =? 92 then ["\"; "\"]
  else if n =? 8 then ["\"; "b"]
  else if n =? 12 then ["\"; "f"]
  else if n =? 10 then ["\"; "n"]
  else if n =? 13 then ["\"; "r"]
  else if n =? 9 then ["\"; "t"]
  else if (32 <=? n) && (n <=? 126) then [c]
  else ["\"; "u"; "0"; "0"; hex_char (n / 16); hex_char (n mod 16)].

Definition quote (s : str) : str :=
  dquote :: flat_map escape_char s ++ [dquote].

Section Dumps.

Variable float_repr : Q -> str.

Fixpoint dumps (v : json) : str :=
  match v with
  | JNull => py "null"
  | JBool true => py "true"
  | JBool false => py "false"
  | JInt z => show_int z
  | JFloat q => float_repr q
  | JStr s => quote s
  | JArr l =>
      "[" :: (fix items (l : list json) : str :=
                match l with
                | [] => []
                | [x] => dumps x
                | x :: l' => dumps x ++ py ", " ++ items l'
                end) l ++ ["]"]
  | JObj m =>
      "{" :: (fix members (m : list (str * json)) : str :=
                match m with
                | [] => []
                | [(k, x)] => quote k ++ py ": " ++ dumps x
                | (k, x) :: m' =>
                    quote k ++ py ": " ++ dumps x ++ py ", " ++ members m'
                end) m ++ ["}"]
  end.

(** The elements of an array and the members of an object as [dumps]
    writes them between the brackets. *)
Definition dumps_items : list json -> str :=
  fix items (l : list json) : str :=
    match l with
    | [] => []
    | [x] => dumps x
    | x :: l' => dumps x ++ py ", " ++ items l'
    end.

Definition dumps_members : list (str * json) -> str :=
  fix members (m : list (str * json)) : str :=
    match m with
    | [] => []
    | [(k, x)] => quote k ++ py ": " ++ dumps x
    | (k, x) :: m' =>
        quote k ++ py ": " ++ dumps x ++ py ", " ++ members m'
    end.

End Dumps.

(** The decoder's whitespace: space, tab, line feed, carriage return. *)
Definition is_json_ws (c : ascii) : bool :=
  let n := ord c in (n =? 32) || (n =? 9) || (n =? 10) || (n =? 13).

Fixpoint skip_ws (s : str) : str :=
  match s with
  | c :: s' => if is_json_ws c then skip_ws s' else s
  | [] => []
  end.

Definition is_digit (c : ascii) : bool :=
  let n := ord c in (48 <=? n) && (n <=? 57).

Definition push_digit (c : ascii) (d : Decimal.uint) : Decimal.uint :=
  match ord c - 48 with
  | 0 => Decimal.D0 d
  | 1 => Decimal.D1 d
  | 2 => Decimal.D2 d
  | 3 => Decimal.D3 d
  | 4 => Decimal.D4 d
  | 5 => Decimal.D5 d
  | 6 => Decimal.D6 d
  | 7 => Decimal.D7 d
  | 8 => Decimal.D8 d
  | _ => Decimal.D9 d
  end.

(** The longest run of digits at the head of [s], and what follows. *)
Fixpoint scan_digits (s : str) : Decimal.uint * str :=
  match s with
  | c :: s' =>
      if is_digit c
      then let (d, r) := scan_digits s' in (push_digit c d, r)
      else (Decimal.Nil, s)
  | [] => (Decimal.Nil, [])
  end.

Definition hex_val (c : ascii) : option nat :=
  let n := ord c in
  if (48 <=? n) && (n <=? 57) then Some (n - 48)
  else if (65 <=? n) && (n <=? 70) then Some (n - 55)
  else if (97 <=? n) && (n <=? 102) then Some (n - 87)
  else None.

Definition hex4 (a b c d : ascii) : option nat :=
  match hex_val a, hex_val b, hex_val c, hex_val d with
  | Some x, Some y, Some z, Some w => Some (((x * 16 + y) * 16 + z) * 16 + w)
  | _, _, _, _ => None
  end.

Definition unescape (c : ascii) : option ascii :=
  let n := ord c in
  if n =? 34 then Some dquote
  else if n =? 92 then Some "\"
  else if n =? 47 then Some "/"
  else if n =? 98 then Some (ascii_of_nat 8)
  else if n =? 102 then Some (ascii_of_nat 12)
  else if n =? 110 then Some (ascii_of_nat 10)
  else if n =? 114 then Some (ascii_of_nat 13)
  else if n =? 116 then Some (ascii_of_nat 9)
  else None.

(** The body of a string literal, after the opening quote; returns the
    string and what follows the closing quote.  A [\u] escape of a code
    point above 255 has no value in the embedding and is [Unsupported]. *)
Fixpoint scan_string (s : str) : Exc (str * str) :=
  match s with
  | [] => Raise JSONDecodeError
  | c :: s' =>
      if ord c =? 34 then Ret ([], s')
      else if ord c =? 92 then
        match s' with
        | [] => Raise JSONDecodeError
        | e :: s'' =>
            if ord e =? 117 then
              match s'' with
              | h1 :: h2 :: h3 :: h4 :: r =>
                  match hex4 h1 h2 h3 h4 with
                  | Some n =>
                      if n <? 256
                      then '(t, r') <- scan_string r ;;
                           Ret (ascii_of_nat n :: t, r')
                      else Raise Unsupported
                  | None => Raise JSONDecodeError
                  end
              | _ => Raise JSONDecodeError
              end
            else
              match unescape e with
              | Some ch => '(t, r') <- scan_string s'' ;; Ret (ch :: t, r')
              | None => Raise JSONDecodeError
              end
        end
      else if ord c <? 32 then Raise JSONDecodeError
      else '(t, r') <- scan_string s' ;; Ret (c :: t, r')
  end.

(** The value of the literal [-?i.f e exp], exactly. *)
Definition decimal_value (neg : bool) (i f : Decimal.uint) (e : Z) : Q :=
  let m := Z.of_uint (Decimal.app i f) in
  let k := (e - Z.of_nat (Decimal.nb_digits f))%Z in
  let q := if (0 <=? k)%Z then inject_Z (m * 10 ^ k)
           else Qmake m (Z.to_pos (10 ^ (- k))) in
  if neg then Qopp q else q.

(** The integer part of a number: a lone [0], or a run of digits that
    starts with 1-9. *)
Definition scan_int_part (s : str) : option (Decimal.uint * str) :=
  match s with
  | c :: s' =>
      if ord c =? 48 then Some (Decimal.D0 Decimal.Nil, s')
      else if is_digit c then Some (scan_digits s)
      else None
  | [] => None
  end.

(** [.digits], when at least one digit follows the point. *)
Definition scan_frac (s : str) : option (Decimal.uint * str) :=
  match s with
  | "." :: ((c :: _) as s') => if is_digit c then Some (scan_digits s') else None
  | _ => None
  end.

(** [e], an optional sign and at least one digit. *)
Definition scan_exp (s : str) : option (Z * str) :=
  match s with
  | c :: s' =>
      if (ord c =? 101) || (ord c =? 69) then
        match s' with
        | "-" :: ((d :: _) as s'') =>
            if is_digit d
            then let (u, r) := scan_digits s'' in Some ((- Z.of_uint u)%Z, r)
            else None
        | "+" :: ((d :: _) as s'') =>
            if is_digit d
            then let (u, r) := scan_digits s'' in Some (Z.of_uint u, r)
            else None
        | d :: _ =>
            if is_digit d
            then let (u, r) := scan_digits s' in Some (Z.of_uint u, r)
            else None
        | [] => None
        end
      else None
  | [] => None
  end.

(** What the decoder takes from the interpreter.
    - [max_depth]: how many arrays and objects, one inside the other, it
      may enter before the recursion limit is reached; this depends on
      [sys.getrecursionlimit()] and on the calls that are under way.
    - [max_str_digits]: [sys.get_int_max_str_digits()], 4300 by default;
      0 means no limit.
    - [to_float]: [float()] on the text of a number, as a function of the
      value of the decimal: the nearest float, or [None] when it is not
      finite, which has no value in the embedding. *)
Record Interp : Type := mkInterp {
  max_depth : nat;
  max_str_digits : nat;
  to_float : Q -> option Q
}.

(** An integer of [n] digits may be converted. *)
Definition digits_ok (interp : Interp) (n : nat) : bool :=
  (max_str_digits interp =? 0) || (n <=? max_str_digits interp).

Section Loads.

Variable interp : Interp.

(** The float for the decimal [q], after what was read. *)
Definition as_float (q : Q) (r : str) : Exc (json * str) :=
  match to_float interp q with
  | Some x => Ret (JFloat x, r)
  | None => Raise Unsupported
  end.

(** A number without its sign at the head of [s]: an [int] when it has
    neither fraction nor exponent, and then a [ValueError] when it has
    more digits than the interpreter converts; a [float] otherwise, the
    decimal rounded by the interpreter. *)
Definition scan_unsigned (neg : bool) (s : str) : Exc (json * str) :=
  match scan_int_part s with
  | None => Raise JSONDecodeError
  | Some (i, s2) =>
      match scan_frac s2, scan_exp (match scan_frac s2 with
                                    | Some (_, r) => r
                                    | None => s2
                                    end) with
      | None, None =>
          if digits_ok interp (Decimal.nb_digits i)
          then Ret (JInt (if neg then (- Z.of_uint i)%Z else Z.of_uint i), s2)
          else Raise ValueError
      | Some (f, r), None => as_float (decimal_value neg i f 0) r
      | None, Some (e, r) => as_float (decimal_value neg i Decimal.Nil e) r
      | Some (f, _), Some (e, r) => as_float (decimal_value neg i f e) r
      end
  end.

(** A number at the head of [s]. *)
Definition scan_number (s : str) : Exc (json * str) :=
  match s with
  | "-" :: s' => scan_unsigned true s'
  | _ => scan_unsigned false s
  end.

(** What [dict(pairs)] keeps of a list of pairs. *)
Definition dict_of_pairs (pairs : list (str * json)) : dict :=
  fold_left (fun d kv => dict_set (fst kv) (snd kv) d) pairs [].

(** The scanner.  [depth] is the number of arrays and objects that it
    may still enter: entering one more raises [RecursionError], as the
    decoder does at the recursion limit.  [fuel] only makes the recursion
    structural; [loads] gives more than a text can use.  [scan_items]
    reads the elements of an array from the first one, [scan_members] the
    members of an object from the first key. *)
Fixpoint scan_once (fuel : nat) (depth : nat) (s : str) : Exc (json * str) :=
  match fuel with
  | O => Raise RecursionError
  | S n =>
      match s with
      | dquote :: r => '(t, r') <- scan_string r ;; Ret (JStr t, r')
      | "{" :: r =>
          match depth with
          | O => Raise RecursionError
          | S d =>
              match skip_ws r with
              | "}" :: r' => Ret (JObj [], r')
              | r' => '(m, r'') <- scan_members n d r' ;;
                      Ret (JObj (dict_of_pairs m), r'')
              end
          end
      | "[" :: r =>
          match depth with
          | O => Raise RecursionError
          | S d =>
              match skip_ws r with
              | "]" :: r' => Ret (JArr [], r')
              | r' => '(l, r'') <- scan_items n d r' ;; Ret (JArr l, r'')
              end
          end
      | "n" :: "u" :: "l" :: "l" :: r => Ret (JNull, r)
      | "t" :: "r" :: "u" :: "e" :: r => Ret (JBool true, r)
      | "f" :: "a" :: "l" :: "s" :: "e" :: r => Ret (JBool false, r)
      | "N" :: "a" :: "N" :: r => Raise Unsupported
      | "I" :: "n" :: "f" :: "i" :: "n" :: "i" :: "t" :: "y" :: r =>
          Raise Unsupported
      | "-" :: "I" :: "n" :: "f" :: "i" :: "n" :: "i" :: "t" :: "y" :: r =>
          Raise Unsupported
      | _ => scan_number s
      end
  end
with scan_items (fuel : nat) (depth : nat) (s : str) : Exc (list json * str) :=
  match fuel with
  | O => Raise RecursionError
  | S n =>
      '(v, r) <- scan_once n depth s ;;
      match skip_ws r with
      | "]" :: r' => Ret ([v], r')
      | "," :: r' =>
          '(vs, r'') <- scan_items n depth (skip_ws r') ;; Ret (v :: vs, r'')
      | _ => Raise JSONDecodeError
      end
  end
with scan_members (fuel : nat) (depth : nat) (s : str)
    : Exc (list (str * json) * str) :=
  match fuel with
  | O => Raise RecursionError
  | S n =>
      match s with
      | dquote :: r =>
          '(k, r1) <- scan_string r ;;
          match skip_ws r1 with
          | ":" :: r2 =>
              '(v, r3) <- scan_once n depth (skip_ws r2) ;;
              match skip_ws r3 with
              | "}" :: r4 => Ret ([(k, v)], r4)
              | "," :: r4 =>
                  '(m, r5) <- scan_members n depth (skip_ws r4) ;;
                  Ret ((k, v) :: m, r5)
              | _ => Raise JSONDecodeError
              end
          | _ => Raise JSONDecodeError
          end
      | _ => Raise JSONDecodeError
      end
  end.

(** [json.loads(s)]: leading whitespace, one value, trailing whitespace,
    and nothing else. *)
Definition loads (s : str) : Exc json :=
  '(v, r) <- scan_once (2 * List.length s + 2) (max_depth interp) (skip_ws s) ;;
  match skip_ws r with
  | [] => Ret v
  | _ => Raise JSONDecodeError
  end.

End Loads.

(** *** Notions for the round trip *)

Fixpoint nodup_keys (ks : list str) : bool :=
  match ks with
  | [] => true
  | k :: ks' => negb (existsb (str_eqb k) ks') && nodup_keys ks'
  end.

(** Fuel that [scan_once] needs for the text of a value. *)
Fixpoint need (v : json) : nat :=
  match v with
  | JArr l => S ((fix go (l : list json) : nat :=
                    match l with
                    | [] => 0
                    | x :: l' => S (Nat.max (need x) (go l'))
                    end) l)
  | JObj m => S ((fix go (m : list (str * json)) : nat :=
                    match m with
                    | [] => 0
                    | kv :: m' => S (Nat.max (need (snd kv)) (go m'))
                    end) m)
  | _ => 1
  end.

Definition need_items : list json -> nat :=
  fix go (l : list json) : nat :=
    match l with
    | [] => 0
    | x :: l' => S (Nat.max (need x) (go l'))
    end.

Definition need_members : list (str * json) -> nat :=
  fix go (m : list (str * json)) : nat :=
    match m with
    | [] => 0
    | kv :: m' => S (Nat.max (need (snd kv)) (go m'))
    end.

(** [rest] does not continue a number. *)
Definition ends_number (rest : str) : bool :=
  match rest with
  | [] => true
  | c :: _ => negb (is_digit c) && negb (ord c =? 46)
              && negb (ord c =? 101) && negb (ord c =? 69)
  end.

(** [s] starts as a serialized value does. *)
Definition starts_value (s : str) : bool :=
  match s with
  | c :: _ => is_digit c
              || existsb (Ascii.eqb c) [dquote; "{"; "["; "n"; "t"; "f"; "-"]
  | [] => false
  end.

(** [s] is what follows a value inside a document. *)
Definition ends_value (s : str) : bool :=
  match s with
  | c :: _ => existsb (Ascii.eqb c) [","; "]"; "}"]
  | [] => true
  end.

(** The last character of [s] is no whitespace. *)
Fixpoint closes_value (s : str) : bool :=
  match s with
  | [] => false
  | [c] => negb (is_space c)
  | _ :: s' => closes_value s'
  end.

(** [s] starts as the text of a number does: a digit, or a minus sign
    and a digit. *)
Definition number_start (s : str) : bool :=
  match s with
  | "-" :: c :: _ => is_digit c
  | c :: _ => is_digit c
  | [] => false
  end.

(** The number of digits of [z] in base ten. *)
Definition int_digits (z : Z) : nat :=
  match Z.to_int z with
  | Decimal.Pos d | Decimal.Neg d => Decimal.nb_digits d
  end.

(** How deep the arrays and objects of [v] are nested. *)
Fixpoint depth (v : json) : nat :=
  match v with
  | JArr l => S ((fix go (l : list json) : nat :=
                    match l with
                    | [] => 0
                    | x :: l' => Nat.max (depth x) (go l')
                    end) l)
  | JObj m => S ((fix go (m : list (str * json)) : nat :=
                    match m with
                    | [] => 0
                    | kv :: m' => Nat.max (depth (snd kv)) (go m')
                    end) m)
  | _ => 0
  end.

Definition depth_items : list json -> nat :=
  fix go (l : list json) : nat :=
    match l with
    | [] => 0
    | x :: l' => Nat.max (depth x) (go l')
    end.

Definition depth_members : list (str * json) -> nat :=
  fix go (m : list (str * json)) : nat :=
    match m with
    | [] => 0
    | kv :: m' => Nat.max (depth (snd kv)) (go m')
    end.

Section Readable.

Variable interp : Interp.
Variable float_repr : Q -> str.

(** The text of the float [q] is the text of a number, and the decoder
    reads it back as [q] wherever it stands in a document: this is
    [float(repr(q)) == q], which the interpreter grants for every finite
    float. *)
Definition reads_back (q : Q) : Prop :=
  number_start (float_repr q) = true
  /\ closes_value (float_repr q) = true
  /\ forall rest, ends_value rest = true ->
       scan_number interp (float_repr q ++ rest) = Ret (JFloat q, rest).

(** A value that the interpreter can read back from its text: no
    integer has more digits than it converts, every float is read back,
    and every mapping has each key once (as every [dict] has). *)
Inductive readable : json -> Prop :=
| readable_null : readable JNull
| readable_bool (b : bool) : readable (JBool b)
| readable_int (z : Z) :
    digits_ok interp (int_digits z) = true -> readable (JInt z)
| readable_float (q : Q) : reads_back q -> readable (JFloat q)
| readable_str (s : str) : readable (JStr s)
| readable_arr (l : list json) : Forall readable l -> readable (JArr l)
| readable_obj (m : list (str * json)) :
    nodup_keys (map fst m) = true ->
    Forall (fun kv => readable (snd kv)) m -> readable (JObj m).

(** [scan_once] reads the text of [v] back, whatever follows it inside
    a document, with the fuel [need v] and room for [depth v] nested
    arrays and objects. *)
Definition scans (v : json) : Prop :=
  readable v ->
  forall fuel d rest, need v <= fuel -> depth v <= d -> ends_value rest = true ->
  scan_once interp fuel d (dumps float_repr v ++ rest) = Ret (v, rest).

End Readable.

(** [n] arrays, one inside the other, around an empty one. *)
Fixpoint nested (n : nat) : json :=
  match n with
  | O => JArr []
  | S n' => JArr [nested n']
  end.

End PyJson.

(** ** [src/core/llm.py]: class [LLM] *)

Module LLM.

(** *** The regular expressions of the module, as matchers *)

Section Sub.

(** [re.sub] for a pattern that matches no empty string.  [m s] tells
    whether the pattern matches at the head of [s], with the replacement
    and the length of the match; scanning resumes after the match. *)
Variable m : str -> option (str * nat).

Fixpoint sub_from (skip : nat) (s : str) : str :=
  match s with
  | [] => []
  | c :: s' =>
      match skip with
      | S k => sub_from k s'
      | O =>
          match m s with
          | Some (rep, n) => rep ++ sub_from (n - 1) s'
          | None => c :: sub_from 0 s'
          end
      end
  end.

Definition re_sub (s : str) : str := sub_from 0 s.

End Sub.

(** Length of the run of whitespace at the head of [s] (a greedy [\s*]). *)
Fixpoint ws_run (s : str) : nat :=
  match s with
  | c :: s' => if is_space c then S (ws_run s') else 0
  | [] => 0
  end.

(** [,\s*}] and [,\s*]]: a comma, whitespace, the closer. *)
Definition comma_before (closer : ascii) (s : str) : option (str * nat) :=
  match s with
  | "," :: r =>
      match skipn (ws_run r) r with
      | c :: _ => if Ascii.eqb c closer
                  then Some ([closer], 2 + ws_run r) else None
      | [] => None
      end
  | _ => None
  end.

(** Position of the first occurrence of the character [c]. *)
Fixpoint index_of (c : ascii) (s : str) : option nat :=
  match s with
  | [] => None
  | x :: s' => if Ascii.eqb x c then Some 0
               else option_map S (index_of c s')
  end.

(** Position of the first occurrence of the string [p]. *)
Fixpoint find (p : str) (s : str) : option nat :=
  if startswith p s then Some 0
  else match s with
       | [] => None
       | _ :: s' => option_map S (find p s')
       end.

Definition newline : ascii := ascii_of_nat 10.

(** [//.*?\n]: two slashes up to the first line feed; a dot matches no
    line feed, so there must be one for the pattern to match. *)
Definition line_comment (s : str) : option (str * nat) :=
  match s with
  | "/" :: "/" :: r =>
      match index_of newline r with
      | Some i => Some ([newline], 2 + i + 1)
      | None => None
      end
  | _ => None
  end.

(** [/\*.*?\*/] with DOTALL: up to the first [*/] after the opener. *)
Definition block_comment (s : str) : option (str * nat) :=
  match s with
  | "/" :: "*" :: r =>
      match find ["*"; "/"] r with
      | Some i => Some ([], 2 + i + 2)
      | None => None
      end
  | _ => None
  end.

(** [ord(char) >= 32 or char in '\n\r\t'] *)
Definition keep_char (c : ascii) : bool :=
  (32 <=? ord c) || (ord c =? 10) || (ord c =? 13) || (ord c =? 9).

Definition _clean_json (json_str : str) : str :=
  let json_str := re_sub (comma_before "}") json_str in
  let json_str := re_sub (comma_before "]") json_str in
  let json_str := re_sub line_comment json_str in
  let json_str := re_sub block_comment json_str in
  filter keep_char json_str.

(** The tail [\s*```] of the fence pattern, at the head of [s]. *)
Definition at_fence_close (s : str) : bool :=
  startswith ["`"; "`"; "`"] (lstrip s).

(** The lazy [.*?closer] followed by the tail: the shortest stretch that
    ends with [closer] and is followed by the closing fence. *)
Fixpoint lazy_until (closer : ascii) (s : str) : option str :=
  match s with
  | [] => None
  | c :: s' =>
      if Ascii.eqb c closer && at_fence_close s' then Some [c]
      else option_map (cons c) (lazy_until closer s')
  end.

(** [\s*(\[.*?\]|\{.*?\})\s*```] at the head of [s]; returns group 1. *)
Definition fence_body (s : str) : option str :=
  match lstrip s with
  | "[" :: b => option_map (cons "[") (lazy_until "]" b)
  | "{" :: b => option_map (cons "{") (lazy_until "}" b)
  | _ => None
  end.

(** The whole fence pattern at the head of [s]: the optional [json] is
    tried first, then its absence. *)
Definition fence_at (s : str) : option str :=
  match s with
  | "`" :: "`" :: "`" :: r =>
      match (if startswith (py "json") r then fence_body (skipn 4 r)
             else None) with
      | Some g => Some g
      | None => fence_body r
      end
  | _ => None
  end.

(** [re.search] of the fence pattern: the leftmost match. *)
Fixpoint search_fence (s : str) : option str :=
  match fence_at s with
  | Some g => Some g
  | None => match s with
            | [] => None
            | _ :: s' => search_fence s'
            end
  end.

(** The suffix of [s] that starts at the first [c]. *)
Fixpoint from_first (c : ascii) (s : str) : option str :=
  match s with
  | [] => None
  | x :: s' => if Ascii.eqb x c then Some s else from_first c s'
  end.

(** The prefix of [s] that ends at the last [c]. *)
Fixpoint to_last (c : ascii) (s : str) : option str :=
  match s with
  | [] => None
  | x :: s' =>
      match to_last c s' with
      | Some p => Some (x :: p)
      | None => if Ascii.eqb x c then Some [x] else None
      end
  end.

(** [re.search] of [(\[[\s\S]*\])] and of [(\{[\s\S]*\})]: from the
    first opener to the last closer after it. *)
Definition search_span (o c : ascii) (text : str) : option str :=
  match from_first o text with
  | Some (x :: r) => option_map (cons x) (to_last c r)
  | _ => None
  end.

(** The loop that counts brackets: [count] is [bracket_count], [i] the
    index of the head of [s]; the result is [end_pos]. *)
Fixpoint count_brackets (o c : ascii) (count : Z) (i : nat) (s : str) : nat :=
  match s with
  | [] => 0
  | ch :: s' =>
      if Ascii.eqb ch o then count_brackets o c (count + 1) (S i) s'
      else if Ascii.eqb ch c then
        if (count - 1 =? 0)%Z then i + 1
        else count_brackets o c (count - 1) (S i) s'
      else count_brackets o c count (S i) s'
  end.

(** The string that the array step, or the object step, hands to the
    parser, when its pattern matches. *)
Definition bracket_candidate (o c : ascii) (text : str) : option str :=
  match search_span o c text with
  | Some g =>
      let json_str := _clean_json (strip g) in
      let end_pos := count_brackets o c 0 0 json_str in
      Some (if 0 <? end_pos then firstn end_pos json_str else json_str)
  | None => None
  end.

(** Bracket depth of a text: openers minus closers. *)
Fixpoint depth (o c : ascii) (s : str) : Z :=
  match s with
  | [] => 0
  | ch :: s' =>
      ((if Ascii.eqb ch o then 1 else if Ascii.eqb ch c then -1 else 0)
       + depth o c s')%Z
  end.

(** The [k]-th character of [s] is a closer, and it brings the depth of
    the first [k] characters back to zero. *)
Definition closes_at (o c : ascii) (s : str) (k : nat) : Prop :=
  0 < k /\ nth_error s (k - 1) = Some c /\ depth o c (firstn k s) = 0%Z.

Definition first_close (o c : ascii) (s : str) (k : nat) : Prop :=
  closes_at o c s k /\ forall j, j < k -> ~ closes_at o c s j.

(** What the array step ([o], [c] the square brackets) and the object
    step (the braces) select in [text]: the stretch from the first opener
    to the last closer is cleaned, and the cleaned text is cut after the
    closer that first brings the depth back to zero, when there is one. *)
Definition selects (o c : ascii) (text cand : str) : Prop :=
  exists pre mid post,
    text = pre ++ o :: mid ++ c :: post
    /\ ~ In o pre /\ ~ In c post
    /\ ((exists k, first_close o c (_clean_json (o :: mid ++ [c])) k
                   /\ cand = firstn k (_clean_json (o :: mid ++ [c])))
        \/ ((forall k, ~ closes_at o c (_clean_json (o :: mid ++ [c])) k)
            /\ cand = _clean_json (o :: mid ++ [c]))).

(** The selection as the specification words it: from the first opener
    to the closer that bracket counting matches with it, on the text as
    it is; the cleaning pass comes after. *)
Definition matching_span (o c : ascii) (text : str) : option str :=
  match from_first o text with
  | Some s =>
      let end_pos := count_brackets o c 0 0 s in
      if 0 <? end_pos then Some (firstn end_pos s) else None
  | None => None
  end.

Definition claimed_candidate (o c : ascii) (text : str) : option str :=
  option_map _clean_json (matching_span o c text).

(** The string that the code-block step hands to the parser. *)
Definition fence_candidate (text : str) : option str :=
  option_map (fun g => _clean_json (strip g)) (search_fence text).

Section Extract.

(** [json.loads] *)
Variable json_loads : str -> Exc json.

(** One step of the cascade: parse the candidate, if there is one, and
    go on with [next] when there is none or the parser raises. *)
Definition attempt (candidate : option str) (next : Exc json) : Exc json :=
  match candidate with
  | Some json_str => catch (json_loads json_str) next
  | None => next
  end.

(** [extract_json]; the result [None] is [JNull]. *)
Definition extract_json (text : str) : Exc json :=
  if match text with [] => true | _ => false end
     || startswith (py "Error:") text
  then Ret JNull
  else
    let text := strip text in
    attempt (Some text)
      (attempt (fence_candidate text)
         (attempt (bracket_candidate "[" "]" text)
            (attempt (bracket_candidate "{" "}" text)
               (Ret JNull)))).

(** A text whose block comment holds a closing bracket. *)
Definition commented_array : str := py "x [1, /* ] */ 2] y".

(** The strings that [extract_json] may hand to the parser for [text]
    (already stripped), in the order of the steps. *)
Definition candidates (text : str) : list (option str) :=
  [Some text; fence_candidate text; bracket_candidate "[" "]" text;
   bracket_candidate "{" "}" text].

End Extract.

End LLM.

(** ** [src/core/arxiv.py] *)

Module Arxiv.

Record Paper : Type := mkPaper {
  title : str;
  abstract : str;
  authors : list str;
  year : Z;
  url : option str
}.

(** An XML element, as far as the code reads it: its [text], which is
    [None] for an element without text. *)
Definition elem := option str.

(** An [entry] of the feed: what [find] returns for each tag ([None] when
    the child is absent), and for each [author] child what [find] returns
    for its [name]. *)
Record Entry : Type := mkEntry {
  e_title : option elem;
  e_summary : option elem;
  e_id : option elem;
  e_published : option elem;
  e_authors : list (option elem)
}.

(** The whitespace that [int()] strips. *)
Definition is_int_space (c : ascii) : bool :=
  let n := ord c in
  ((9 <=? n) && (n <=? 13)) || (n =? 32) || (n =? 133) || (n =? 160).

Fixpoint int_lstrip (s : str) : str :=
  match s with
  | c :: s' => if is_int_space c then int_lstrip s' else s
  | [] => []
  end.

(** Digits, with single underscores between them. *)
Fixpoint int_digits (acc : Z) (after_digit : bool) (s : str) : option Z :=
  match s with
  | [] => if after_digit then Some acc else None
  | c :: s' =>
      if PyJson.is_digit c
      then int_digits (acc * 10 + Z.of_nat (ord c - 48))%Z true s'
      else if (ord c =? 95) && after_digit
      then match s' with
           | d :: _ => if PyJson.is_digit d then int_digits acc false s'
                       else None
           | [] => None
           end
      else None
  end.

(** [int(s)] for a string [s] *)
Definition py_int (s : str) : Exc Z :=
  let t := rev (int_lstrip (rev (int_lstrip s))) in
  let r := match t with
           | "+" :: t' => int_digits 0 false t'
           | "-" :: t' => option_map Z.opp (int_digits 0 false t')
           | _ => int_digits 0 false t
           end in
  match r with
  | Some z => Ret z
  | None => Raise ValueError
  end.

(** The text of an element, empty when it has none. *)
Definition text_of (t : elem) : str :=
  match t with
  | Some s => s
  | None => []
  end.

(** Truth value of an optional string. *)
Definition nonempty (t : option str) : bool :=
  match t with
  | Some (_ :: _) => true
  | _ => false
  end.

(** The body of the loop over the entries: [Ret None] is [continue]. *)
Definition parse_entry (entry : Entry) : Exc (option Paper) :=
  match e_title entry, e_summary entry with
  | Some title_text, Some summary_text =>
      let title := match title_text with
                   | Some ((_ :: _) as t) => strip t
                   | _ => py "Untitled"
                   end in
      let summary := match summary_text with
                     | Some ((_ :: _) as t) => strip t
                     | _ => py "No abstract available."
                     end in
      let link := match e_id entry with
                  | Some t => t
                  | None => Some []
                  end in
      let authors :=
        flat_map (fun name => match name with
                              | Some (Some ((_ :: _) as t)) => [t]
                              | _ => []
                              end) (e_authors entry) in
      let published := match e_published entry with
                       | Some t => t
                       | None => Some []
                       end in
      year <- match published with
              | Some ((_ :: _) as p) =>
                  if 4 <=? List.length p then py_int (firstn 4 p)
                  else Ret 2024%Z
              | _ => Ret 2024%Z
              end ;;
      Ret (Some (mkPaper title summary authors year link))
  | _, _ => Ret None
  end.

(** One turn of the loop: an exception in the body is caught and the
    entry is dropped. *)
Definition entry_papers (entry : Entry) : list Paper :=
  match catch (parse_entry entry) (Ret None) with
  | Ret (Some p) => [p]
  | _ => []
  end.

Section Search.

(** The request and the parse of the feed: [fetch query n] is the list
    of [entry] elements, or an exception. *)
Variable fetch : str -> Z -> Exc (list Entry).

Definition search_arxiv (query : str) (max_results : Z) : Exc (list Paper) :=
  catch (entries <- fetch query (Z.min max_results 100) ;;
         Ret (slice_to max_results (flat_map entry_papers entries)))
        (Ret []).

End Search.

End Arxiv.

(** ** [src/core/research.py]: class [ValidatorAgent] *)

Module ValidatorAgent.

Import Arxiv.

Definition filler : list str :=
  map py ["the"; "a"; "an"; "is"; "are"; "but"; "has"; "have"; "this";
          "that"; "these"; "those"; "been"; "being"]%string.

(** What the prompt template interpolates, in the order of the template.
    The text around these values is fixed. *)
Record Prompt : Type := mkPrompt {
  p_field_context : str;
  p_title : json;
  p_observation : json;
  p_hypothesis : json;
  p_expected_insight : json;
  p_experiment_design : str;
  p_challenge_text : str
}.

(** What [validate] does to the outside world: the [i]-th search, the
    [i]-th call of the language model. *)
Inductive event : Type :=
| EvSearch (i : nat) (query : str)
| EvLLM (i : nat) (prompt : Prompt).

(** The iteration that made the call. *)
Definition event_index (e : event) : nat :=
  match e with
  | EvSearch i _ => i
  | EvLLM i _ => i
  end.

Definition is_llm_event (i : nat) (e : event) : bool :=
  match e with
  | EvLLM j _ => j =? i
  | EvSearch _ _ => false
  end.

(** [a > b] as [max] uses it on the keys.  Ordering of lists is outside
    the embedding. *)
Fixpoint str_ltb (a b : str) : bool :=
  match a, b with
  | _, [] => false
  | [], _ :: _ => true
  | x :: a', y :: b' =>
      (ord x <? ord y) || ((ord x =? ord y) && str_ltb a' b')
  end.

Definition py_gt (a b : json) : Exc bool :=
  match as_number a, as_number b with
  | Some x, Some y => Ret (negb (Qle_bool x y))
  | _, _ =>
      match a, b with
      | JStr s, JStr t => Ret (str_ltb t s)
      | JArr _, JArr _ => Raise Unsupported
      | _, _ => Raise TypeError
      end
  end.

(** [max(items, key=...)]: the first item whose key no later key
    exceeds, here with its position.  [i] is the position of the head of
    [items]. *)
Fixpoint max_from (key : json -> Exc json) (best : nat * json)
    (best_key : json) (i : nat) (items : list json) : Exc (nat * json) :=
  match items with
  | [] => Ret best
  | x :: rest =>
      k <- key x ;;
      gt <- py_gt k best_key ;;
      if gt then max_from key (i, x) k (S i) rest
      else max_from key best best_key (S i) rest
  end.

Definition max_indexed (key : json -> Exc json) (items : list json)
    : Exc (nat * json) :=
  match items with
  | [] => Raise ValueError
  | x :: rest => k <- key x ;; max_from key (1, x) k 2 rest
  end.

Definition novelty_key (x : json) : Exc json :=
  match x with
  | JObj d => Ret (dict_get (py "novelty_score") (JInt 0) d)
  | _ => Raise AttributeError
  end.

Definition no_prior_work : str :=
  py "No contradicting prior work found in recent literature. Gap appears valid.".
Definition inconclusive : str :=
  py "Validation inconclusive - insight retained with caution.".
Definition all_challenged : str :=
  py "All insights were challenged, but this had the highest novelty score.".
Definition gap_validated : str :=
  py "Gap validated against recent literature.".

Section Validate.

(** [str(v)], as a format field shows a value that is not a string. *)
Variable py_str : json -> str.
(** [json.loads] *)
Variable json_loads : str -> Exc json.
(** [search_arxiv] as the [i]-th iteration calls it. *)
Variable search_arxiv : nat -> str -> Z -> Exc (list Paper).
(** [self.llm.call] as the [i]-th iteration calls it; it returns text. *)
Variable llm_call : nat -> Prompt -> str.

Definition _extract_search_keywords (gap_text title_text : json) (topic : str)
    : str :=
  let combined := firstn 150 (to_str py_str title_text ++ " " :: to_str py_str gap_text) in
  let words := split (lower combined) in
  let keywords :=
    filter (fun w => (4 <? List.length w) && negb (existsb (str_eqb w) filler))
           words in
  let search_terms := firstn 5 keywords ++ [topic] in
  join [" "] search_terms.

(** [', '.join(items)]: every item must be a string. *)
Fixpoint strs_of (items : list json) : Exc (list str) :=
  match items with
  | [] => Ret []
  | JStr s :: rest => l <- strs_of rest ;; Ret (s :: l)
  | _ :: rest => Raise TypeError
  end.

(** [prefix + v]: [v] must be a string. *)
Definition concat_str (prefix : str) (v : json) : Exc str :=
  match v with
  | JStr s => Ret (prefix ++ s)
  | _ => Raise TypeError
  end.

Definition field_line (label : str) (k : string) (d : dict) : list str :=
  let v := dict_get (py k) JNull d in
  if truthy v then [label ++ to_str py_str v] else [].

Definition list_line (label : str) (k : string) (d : dict) : Exc (list str) :=
  let v := dict_get (py k) JNull d in
  if truthy v then
    match v with
    | JArr items => l <- strs_of items ;; Ret [label ++ join (py ", ") l]
    | _ => Ret [label ++ to_str py_str v]
    end
  else Ret [].

Definition procedure_lines (d : dict) : list str :=
  let v := dict_get (py "experimental_procedure") JNull d in
  if truthy v then
    match v with
    | JObj proc =>
        py "Experimental Procedure:"
        :: map (fun kv => py "  " ++ fst kv ++ py ": " ++ to_str py_str (snd kv)) proc
    | _ => [py "Experimental Procedure: " ++ to_str py_str v]
    end
  else [].

Definition week_lines (d : dict) : Exc (list str) :=
  w1 <- concat_str (py "Week 1: ") (dict_get (py "week1") (JStr (py "N/A")) d) ;;
  w2 <- concat_str (py "Week 2: ") (dict_get (py "week2") (JStr (py "N/A")) d) ;;
  w3 <- concat_str (py "Week 3: ") (dict_get (py "week3") (JStr (py "N/A")) d) ;;
  Ret [w1; w2; w3].

Definition _format_experiment_design (exp_design : json) : Exc str :=
  if negb (truthy exp_design) then Ret (py "No experiment design provided.")
  else
    match exp_design with
    | JObj d =>
        let l1 := field_line (py "Objective: ") "objective" d in
        let l2 := field_line (py "Independent Variable: ")
                             "independent_variable" d in
        l3 <- list_line (py "Dependent Variables: ") "dependent_variables" d ;;
        let l4 := field_line (py "Control Group: ") "control_group" d in
        let l5 := procedure_lines d in
        let l6 := field_line (py "Expected Outcome: ") "expected_outcome" d in
        let l7 := field_line (py "Fallback Plan: ") "fallback_plan" d in
        l8 <- list_line (py "Deliverables: ") "deliverables" d ;;
        let lines := l1 ++ l2 ++ l3 ++ l4 ++ l5 ++ l6 ++ l7 ++ l8 in
        let weeks := truthy (dict_get (py "week1") JNull d)
                     || truthy (dict_get (py "week2") JNull d)
                     || truthy (dict_get (py "week3") JNull d) in
        lines <- (if match lines with [] => weeks | _ => false end
                  then week_lines d
                  else if weeks
                  then w <- week_lines d ;;
                       Ret (lines ++ (newline_str ++ py "Legacy Timeline:") :: w)
                  else Ret lines) ;;
        Ret (match lines with
             | [] => py "Experiment design structure not available."
             | _ => join newline_str lines
             end)
    | _ => Raise AttributeError
    end.

(** One line of [challenge_text]. *)
Definition challenge_line (p : Paper) : str :=
  py "- " ++ title p ++ py " (" ++ PyJson.show_int (year p) ++ py "): "
  ++ firstn 200 (abstract p) ++ py "...".

(** The outcome of [extract_json] brought to a mapping or [None]. *)
Definition as_mapping (validation : json) : json :=
  match validation with
  | JArr (JObj d :: _) => JObj d
  | JObj d => JObj d
  | _ => JNull
  end.

(** The three assignments of the branches that keep an insight without a
    judgement. *)
Definition mark (validated : bool) (score : Q) (evidence : str) (insight : dict)
    : dict :=
  dict_set (py "validation_evidence") (JStr evidence)
    (dict_set (py "survival_score") (JFloat score)
       (dict_set (py "validated") (JBool validated) insight)).

(** The assignments of the surviving branch that copy optional parts of
    the judgement. *)
Definition copy_optional (validation : dict) (insight : dict) : Exc dict :=
  let related := dict_get (py "related_work") JNull validation in
  let insight := if truthy related
                 then dict_set (py "related_work") related insight
                 else insight in
  let comment := dict_get (py "validation_comment") JNull validation in
  let insight := if truthy comment
                 then dict_set (py "validation_comment") comment insight
                 else insight in
  let exp_eval := dict_get (py "experiment_design_evaluation") (JObj [])
                           validation in
  if truthy exp_eval then
    quality <- get_of exp_eval "overall_quality" (JInt 0) ;;
    feedback <- get_of exp_eval "feedback" (JStr []) ;;
    completeness <- get_of exp_eval "completeness" (JInt 0) ;;
    reproducibility <- get_of exp_eval "reproducibility" (JInt 0) ;;
    informativeness <- get_of exp_eval "informativeness" (JInt 0) ;;
    branch_logic <- get_of exp_eval "branch_logic" (JInt 0) ;;
    Ret (dict_set (py "experiment_design_scores")
           (JObj [(py "completeness", completeness);
                  (py "reproducibility", reproducibility);
                  (py "informativeness", informativeness);
                  (py "branch_logic", branch_logic)])
           (dict_set (py "experiment_design_feedback") feedback
              (dict_set (py "experiment_design_quality") quality insight)))
  else Ret insight.

(** The refinement of the surviving branch; [observation] and [gap_text]
    are the values read before the judgement. *)
Definition refine (validation : dict) (observation gap_text : json)
    (insight : dict) : Exc dict :=
  let refinement := dict_get (py "refinement") (JStr []) validation in
  if truthy refinement then
    r <- strip_of refinement ;;
    match r with
    | [] => Ret insight
    | _ =>
        insight <- (if truthy observation then
                      o <- strip_of observation ;;
                      Ret (if negb (str_eqb r o)
                           then dict_set (py "observation") refinement insight
                           else insight)
                    else Ret insight) ;;
        set_gap <- (if negb (truthy observation) then Ret true
                    else g <- strip_of gap_text ;; Ret (negb (str_eqb r g))) ;;
        Ret (if set_gap then dict_set (py "gap") refinement insight
             else insight)
    end
  else Ret insight.

(** The judgement applied to the insight: the insight as the surviving
    branch leaves it, or [None] when it is rejected. *)
Definition judge (validation : dict) (observation gap_text : json)
    (insight : dict) : Exc (option dict) :=
  let survival_score := dict_get (py "survival_score") (JInt 5) validation in
  ge6 <- py_ge survival_score 6%Q ;;
  let gap_valid := dict_get (py "gap_still_valid") (JBool ge6) validation in
  let validation_evidence :=
    dict_get (py "evidence") (JStr gap_validated) validation in
  if truthy gap_valid && ge6 then
    let insight :=
      dict_set (py "validation_dialogue") validation_evidence
        (dict_set (py "validation_evidence") validation_evidence
           (dict_set (py "survival_score") survival_score
              (dict_set (py "validated") (JBool true) insight))) in
    insight <- copy_optional validation insight ;;
    insight <- refine validation observation gap_text insight ;;
    Ret (Some insight)
  else Ret None.

(** The prompt for an insight, its challenge papers and its formatted
    experiment design. *)
Definition build_prompt (field_context : str) (insight : dict)
    (challenge_papers : list Paper) (design : str) : Prompt :=
  let gap_text := dict_get (py "gap") (JStr []) insight in
  let title_text := dict_get (py "title") (JStr []) insight in
  let challenge_text :=
    join newline_str (map challenge_line (firstn 3 challenge_papers)) in
  let observation := dict_get (py "observation") (JStr []) insight in
  let hypothesis := dict_get (py "hypothesis") (JStr []) insight in
  let expected_insight := dict_get (py "expected_insight") (JStr []) insight in
  mkPrompt field_context title_text
    (if truthy observation then observation else gap_text)
    (if truthy hypothesis then hypothesis else JStr (py "N/A"))
    (if truthy expected_insight then expected_insight else JStr (py "N/A"))
    design
    (match challenge_text with
     | [] => py "No specific contradicting papers found in search."
     | _ => challenge_text
     end).

(** The body of the loop for the [i]-th insight, a mapping: the insight as
    it is appended to [validated_insights], or [None] when it is
    rejected, and the calls made. *)
Definition validate_one (original_topic field_context : str) (i : nat)
    (insight : dict) : Exc (option dict * list event) :=
  let gap_text := dict_get (py "gap") (JStr []) insight in
  let title_text := dict_get (py "title") (JStr []) insight in
  let search_query := _extract_search_keywords gap_text title_text original_topic in
  let challenge_papers := match search_arxiv i search_query 3 with
                          | Ret papers => papers
                          | Raise _ => []
                          end in
  match challenge_papers with
  | [] => Ret (Some (mark true 8.5%Q no_prior_work insight),
               [EvSearch i search_query])
  | _ :: _ =>
      let observation := dict_get (py "observation") (JStr []) insight in
      design <- _format_experiment_design
                  (dict_get (py "experiment_design") (JObj []) insight) ;;
      let prompt := build_prompt field_context insight challenge_papers design in
      let response := llm_call i prompt in
      extracted <- LLM.extract_json json_loads response ;;
      let validation := as_mapping extracted in
      let events := [EvSearch i search_query; EvLLM i prompt] in
      match validation with
      | JObj ((_ :: _) as v) =>
          r <- judge v observation gap_text insight ;; Ret (r, events)
      | _ => Ret (Some (mark true 7%Q inconclusive insight), events)
      end
  end.

(** The loop: the insights that are kept, each with its position in the
    input (from 1), and the calls made.  An item that is no mapping is
    skipped.  The items of [insights] are taken to be distinct objects, as
    the synthesizer builds them: an assignment to one insight is seen in no
    other item of the list. *)
Fixpoint validate_loop (original_topic field_context : str) (i : nat)
    (insights : list json) : Exc (list (nat * dict) * list event) :=
  match insights with
  | [] => Ret ([], [])
  | JObj insight :: rest =>
      '(kept, ev) <- validate_one original_topic field_context i insight ;;
      '(others, evs) <- validate_loop original_topic field_context (S i) rest ;;
      Ret (match kept with
           | Some d => (i, d) :: others
           | None => others
           end, ev ++ evs)
  | _ :: rest => validate_loop original_topic field_context (S i) rest
  end.

(** [validate], with the position in the input of each returned insight
    and the calls made. *)
Definition validate_indexed (insights : list json)
    (original_topic field_context : str)
    : Exc (list (nat * dict) * list event) :=
  '(validated_insights, events) <-
     validate_loop original_topic field_context 1 insights ;;
  match validated_insights, insights with
  | [], _ :: _ =>
      '(i, best) <- max_indexed novelty_key insights ;;
      match best with
      | JObj best_insight =>
          Ret ([(i, mark false 5%Q all_challenged best_insight)], events)
      | _ => Raise TypeError
      end
  | _, _ => Ret (validated_insights, events)
  end.

Definition validate (insights : list json) (original_topic field_context : str)
    : Exc (list dict) :=
  '(validated_insights, _) <-
     validate_indexed insights original_topic field_context ;;
  Ret (map snd validated_insights).

End Validate.

(** *** Notions for the statements *)

(** The query as the specification words it: title and gap text
    concatenated, the first 150 characters, lowercased, split on
    whitespace, the tokens of at most 4 characters dropped, the filler
    words dropped, the first 5 kept, the topic appended. *)
Definition claimed_query (title gap topic : str) : str :=
  let tokens := split (lower (firstn 150 (title ++ gap))) in
  let long := filter (fun w => negb (List.length w <=? 4)) tokens in
  let kept := filter (fun w => negb (existsb (str_eqb w) filler)) long in
  join [" "] (firstn 5 kept ++ [topic]).

(** The same with a space between title and gap text. *)
Definition spaced_query (title gap topic : str) : str :=
  let tokens := split (lower (firstn 150 (title ++ [" "] ++ gap))) in
  let long := filter (fun w => negb (List.length w <=? 4)) tokens in
  let kept := filter (fun w => negb (existsb (str_eqb w) filler)) long in
  join [" "] (firstn 5 kept ++ [topic]).

(** The novelty score of an insight as a number, 0 when it has none. *)
Definition novelty (insight : dict) : Q :=
  match as_number (dict_get (py "novelty_score") (JInt 0) insight) with
  | Some q => q
  | None => 0%Q
  end.

Definition scored (insight : dict) : bool :=
  match as_number (dict_get (py "novelty_score") (JInt 0) insight) with
  | Some _ => true
  | None => false
  end.

(** A string, or a value that counts as false. *)
Definition str_or_false (v : json) : bool :=
  match v with
  | JStr _ => true
  | _ => negb (truthy v)
  end.

(** The judgement and the insight have the types of the data model
    where the surviving branch reads them: the design evaluation is a
    mapping, the refinement a string, and an insight with an observation
    has strings for its observation and its gap. *)
Definition well_typed (validation insight : dict) : bool :=
  match dict_get (py "experiment_design_evaluation") (JObj []) validation with
  | JObj _ => true
  | v => negb (truthy v)
  end
  && str_or_false (dict_get (py "refinement") (JStr []) validation)
  && (let observation := dict_get (py "observation") (JStr []) insight in
      negb (truthy observation)
      || match observation, dict_get (py "gap") (JStr []) insight with
         | JStr _, JStr _ => true
         | _, _ => false
         end).

(** The two keys that carry the verdict. *)
Definition verdict_key (k : str) : Prop :=
  k = py "validated" \/ k = py "survival_score".

(** The keys that the branches without a judgement assign. *)
Definition mark_keys : list str :=
  [py "validated"; py "survival_score"; py "validation_evidence"].

End ValidatorAgent.

(** ** [src/core/research.py]: class [SynthesizerAgent] *)

Module SynthesizerAgent.

Import Arxiv.

(** What the prompt template interpolates. *)
Record Prompt : Type := mkPrompt {
  p_field_context : str;
  p_papers_titles : str;
  p_gaps_text : str;
  p_contradictions_text : str
}.

Definition show_nat (n : nat) : str := PyJson.show_int (Z.of_nat n).

(** The record made from a list element that is a bare string. *)
Definition promote (item : str) : dict :=
  [(py "title", JStr (if 100 <? List.length item then firstn 100 item else item));
   (py "observation", JStr item);
   (py "hypothesis", JStr []);
   (py "gap", JStr item);
   (py "experiment_design", JObj []);
   (py "expected_insight", JStr []);
   (py "skeptic_challenge", JStr []);
   (py "impact", JStr []);
   (py "novelty_score", JInt 5);
   (py "feasibility_score", JInt 5);
   (py "impact_score", JInt 5)].

(** The loop that keeps the mappings, promotes the strings and skips the
    rest. *)
Definition clean_items (items : list json) : list dict :=
  flat_map (fun item => match item with
                        | JObj d => [d]
                        | JStr s => [promote s]
                        | _ => []
                        end) items.

(** The title that the gap fallback derives from the text of a gap. *)
Definition fallback_title (i : nat) (gap_text : str) : str :=
  let gap_words := firstn 10 (split gap_text) in
  let title_phrase := join [" "] gap_words in
  let title_phrase := if 10 <? List.length (split gap_text)
                      then title_phrase ++ py "..." else title_phrase in
  match title_phrase with
  | [] => py "Research Direction " ++ show_nat i
          ++ py ": Addressing Identified Research Gap"
  | _ => py "Research Direction " ++ show_nat i ++ py ": " ++ title_phrase
  end.

(** The title that the generic fallback derives from a paper. *)
Definition extension_title (p : Paper) : str :=
  let paper_title := match title p with
                     | [] => py "Research Paper"
                     | t => t
                     end in
  if 80 <? List.length paper_title
  then py "Extension and Generalization of " ++ paper_title
  else py "Extension of " ++ paper_title.

Definition _create_generic_fallback (papers : list Paper) : list dict :=
  map (fun p : Paper =>
    [(py "title", JStr (extension_title p));
     (py "observation",
      JStr (py "'" ++ title p ++ py "' presents promising results, but was tested on limited domains or datasets."));
     (py "hypothesis",
      JStr (py "Extending this approach to new domains or datasets could reveal generalizability patterns and uncover domain-specific adaptations needed."));
     (py "experiment_design",
      JObj [(py "week1", JStr (py "Reproduce key results from '" ++ title p ++ py "' on baseline dataset"));
            (py "week2", JStr (py "Adapt the approach to a new domain or dataset not covered in the original paper"));
            (py "week3", JStr (py "Evaluate performance and document gaps or improvements compared to original"))]);
     (py "expected_insight",
      JStr (py "This could reveal whether the method generalizes across domains or requires domain-specific adaptations."));
     (py "gap",
      JStr (py "While '" ++ title p ++ py "' presents promising results, there are opportunities to extend this work to different domains, datasets, or problem settings that weren't explored in the original paper."));
     (py "skeptic_challenge",
      JStr (py "Verify that these extensions haven't already been explored in subsequent work. Check for follow-up papers and related research."));
     (py "impact",
      JStr (py "Building on proven methods with novel applications can yield practical research contributions and help validate the generalizability of the original approach."));
     (py "novelty_score", JInt 6);
     (py "feasibility_score", JInt 9);
     (py "impact_score", JInt 7)]) (firstn 3 papers).

(** The final pass over one insight at index [i] (from 0): the fields
    that must exist are added when they are missing. *)
Definition ensure_fields (i : nat) (insight : dict) : dict :=
  let set_default k v (d : dict) := if dict_has (py k) d then d
                                    else dict_set (py k) v d in
  set_default "experiment_design"%string (JObj [])
    (set_default "gap"%string (JStr [])
       (set_default "hypothesis"%string (JStr [])
          (set_default "observation"%string (JStr [])
             (set_default "title"%string
                (JStr (py "Research Insight " ++ show_nat (i + 1))) insight)))).

Section Synthesize.

Variable py_str : json -> str.
Variable json_loads : str -> Exc json.
(** [self.llm.call]; it returns text. *)
Variable llm_call : Prompt -> str.
(** The dash of the generated dialogue message, a code point above 255. *)
Variable em_dash : str.

Definition _create_fallback_insights (papers : list Paper) (gaps : json)
    : Exc (list dict) :=
  gaps3 <- slice_items 3 gaps ;;
  map_exc (fun ig : nat * json =>
    let (i, gap) := ig in
    gap_value <- get_of gap "gap" (JStr (py "Gap not specified")) ;;
    match gap_value with
    | JStr gap_text =>
        why <- get_of gap "why_matters" (JStr (py "the research area")) ;;
        impact <- get_of gap "why_matters"
                    (JStr (py "Addresses identified limitation in current research")) ;;
        Ret [(py "title", JStr (fallback_title i gap_text));
             (py "observation",
              JStr (py "Multiple papers reveal a pattern: " ++ gap_text));
             (py "hypothesis",
              JStr (py "If addressed systematically, this could reveal important insights about "
                    ++ to_str py_str why));
             (py "experiment_design",
              JObj [(py "week1", JStr (py "Conduct comprehensive literature review to validate the gap"));
                    (py "week2", JStr (py "Design and implement baseline approach addressing the gap"));
                    (py "week3", JStr (py "Evaluate results and compare with existing methods"))]);
             (py "expected_insight",
              JStr (py "This could provide new understanding of the underlying mechanisms and improve current approaches."));
             (py "gap", JStr gap_text);
             (py "skeptic_challenge",
              JStr (py "Verify this gap exists through systematic literature review"));
             (py "impact", impact);
             (py "novelty_score", JInt 7);
             (py "feasibility_score", JInt 8);
             (py "impact_score", JInt 7)]
    | _ => Raise AttributeError
    end) (enumerate 1 gaps3).

(** The dialogue message generated for an insight that came without. *)
Definition dialogue_for (insight : dict) : Exc json :=
  let hypothesis := dict_get (py "hypothesis") (JStr []) insight in
  let observation := dict_get (py "observation") (JStr []) insight in
  if truthy hypothesis then
    seen <- (if truthy observation then slice_value 100 observation
             else Ret (JStr (py "there are patterns here"))) ;;
    maybe <- slice_value 150 hypothesis ;;
    Ret (JStr (py "That's interesting " ++ em_dash ++ py " I recall that "
               ++ to_str py_str seen ++ py ". Maybe " ++ to_str py_str maybe
               ++ py "."))
  else
    let gap := dict_get (py "gap") (JStr []) insight in
    g <- slice_value 150 gap ;;
    Ret (JStr (py "I see an opportunity here. " ++ to_str py_str g
               ++ py " This could be worth exploring.")).

(** [dialogue_messages[i]] for the values that have a length. *)
Definition item_at (v : json) (i : nat) : Exc json :=
  match v with
  | JArr l => match nth_error l i with
              | Some x => Ret x
              | None => Raise ValueError
              end
  | JStr s => match nth_error s i with
              | Some c => Ret (JStr [c])
              | None => Raise ValueError
              end
  | _ => Raise TypeError
  end.

(** What [result] offers as the list of insights and as the dialogue
    messages. *)
Definition offered_insights (result : json) : json :=
  match result with
  | JObj d => dict_get (py "insights") (JArr []) d
  | JArr _ => result
  | _ => JArr []
  end.

Definition offered_messages (result : json) : json :=
  match result with
  | JObj d => dict_get (py "dialogue_messages") (JArr []) d
  | _ => JArr []
  end.

(** The insights kept from [result], before any fallback. *)
Definition kept_insights (result : json) : list dict :=
  match offered_insights result with
  | JArr items => clean_items items
  | _ => []
  end.

(** The part of [synthesize] that follows the extraction of [result]:
    cleaning, fallbacks, required fields, dialogue messages. *)
Definition handle_result (papers : list Paper) (gaps : json) (result : json)
    : Exc (list dict) :=
  let dialogue_messages := offered_messages result in
  let insights := kept_insights result in
  insights <- match insights with
              | [] => _create_fallback_insights papers gaps
              | _ => Ret insights
              end ;;
  let insights := match insights with
                  | [] => _create_generic_fallback papers
                  | _ => insights
                  end in
  let insights := map (fun ii : nat * dict => ensure_fields (fst ii) (snd ii))
                      (enumerate 0 insights) in
  given <- (if truthy dialogue_messages then
              n <- len_of dialogue_messages ;;
              Ret (n =? List.length insights)
            else Ret false) ;;
  messages <- (if given
               then map_exc (fun ii : nat * dict => item_at dialogue_messages (fst ii))
                            (enumerate 0 insights)
               else map_exc dialogue_for insights) ;;
  Ret (map (fun im : dict * json =>
              dict_set (py "dialogue_message") (snd im) (fst im))
           (combine insights messages)).

Definition synthesize (papers : list Paper) (analyzer_output skeptic_output : dict)
    (topic field_context : str) : Exc (list dict) :=
  gaps <- get_of (dict_get (py "analysis") (JObj []) analyzer_output)
            "cross_paper_gaps" (JArr []) ;;
  gaps5 <- slice_items 5 gaps ;;
  gap_lines <- map_exc (fun g =>
                 a <- get_of g "gap" (JStr []) ;;
                 b <- get_of g "why_matters" (JStr []) ;;
                 Ret (py "- " ++ to_str py_str a ++ py ": " ++ to_str py_str b))
               gaps5 ;;
  contradictions <- get_of (dict_get (py "critique") (JObj []) skeptic_output)
                      "contradictions" (JArr []) ;;
  contradictions3 <- slice_items 3 contradictions ;;
  contradiction_lines <-
    map_exc (fun c =>
      a <- get_of c "papers" (JArr []) ;;
      b <- get_of c "contradiction" (JStr []) ;;
      Ret (py "- Papers " ++ to_str py_str a ++ py ": " ++ to_str py_str b))
    contradictions3 ;;
  let papers_titles :=
    join newline_str
      (map (fun ip : nat * Paper => show_nat (fst ip + 1) ++ py ". " ++ title (snd ip))
           (enumerate 0 (firstn 5 papers))) in
  let prompt := mkPrompt field_context papers_titles
                  (join newline_str gap_lines)
                  (join newline_str contradiction_lines) in
  let response := llm_call prompt in
  result <- LLM.extract_json json_loads response ;;
  handle_result papers gaps result.

End Synthesize.

(** *** Notions for the statements *)

(** The title that an insight kept from the result ends with: its own,
    or the numbered default when it has none. *)
Definition settled_title (i : nat) (insight : dict) : json :=
  match dict_find (py "title") insight with
  | Some t => t
  | None => JStr (py "Research Insight " ++ show_nat (i + 1))
  end.

(** The title of a paper as the generic fallback reads it. *)
Definition paper_title (p : Paper) : str :=
  match title p with
  | [] => py "Research Paper"
  | t => t
  end.

(** A bare string of 101 characters. *)
Definition long_item : str := repeat "a" 101.

End SynthesizerAgent.

(** ** [src/core/research.py]: class [ResearchAgent] *)

Module ResearchAgent.

Import Arxiv.

Section Pipeline.

(** The fields of a log entry besides [turn], [agent], [responding_to] and
    [message_type]: the dialogue message, the duration, the summaries and
    the payload of the stage. *)
Variable Payload : Type.

Record LogEntry : Type := mkLogEntry {
  turn : Z;
  agent : str;
  responding_to : list str;
  message_type : str;
  payload : Payload
}.

(** The attributes of [self] that [generate_insights] assigns. *)
Record State : Type := mkState {
  conversation_log : list LogEntry;
  field_context : str;
  research_intelligence_data : json
}.

(** A method: it may raise, and what it assigned before stays. *)
Definition M (A : Type) : Type := State -> Exc A * State.

Definition ret {A} (a : A) : M A := fun self => (Ret a, self).

Definition and_then {A B} (m : M A) (k : A -> M B) : M B :=
  fun self => match m self with
              | (Ret a, self') => k a self'
              | (Raise e, self') => (Raise e, self')
              end.

Definition lift {A} (m : Exc A) : M A := fun self => (m, self).

Definition read_field_context : M str :=
  fun self => (Ret (field_context self), self).

(** [self.conversation_log.append(entry)] *)
Definition append_entry (entry : LogEntry) : M unit :=
  fun self =>
    (Ret tt, mkState (conversation_log self ++ [entry]) (field_context self)
                     (research_intelligence_data self)).

(** [self.conversation_log = []] *)
Definition clear_log : M unit :=
  fun self => (Ret tt, mkState [] (field_context self)
                               (research_intelligence_data self)).

Notation "x <<- m ;; k" := (and_then m (fun x => k))
  (at level 61, m at next level, right associativity).

(** The four agents. *)
Variable analyze_papers : list Paper -> str -> str -> Exc dict.
Variable critique : list Paper -> dict -> str -> str -> Exc dict.
Variable synthesize : list Paper -> dict -> dict -> str -> str -> Exc (list json).
Variable validate : list json -> str -> str -> Exc (list dict).

(** The research intelligence, when it is available: from the topic, the
    sampled papers and all the papers, the field context and the data. *)
Variable research_intelligence :
  option (str -> list Paper -> list Paper -> Exc (str * json)).
(** [random.sample(range(a, b), k)] *)
Variable random_sample : nat -> nat -> nat -> list nat.

(** The rest of each entry, computed from the results of the stages. *)
Variable analyzer_payload : dict -> list Paper -> Exc Payload.
Variable skeptic_payload : dict -> dict -> Exc Payload.
Variable synthesizer_payload : list dict -> Exc Payload.
Variable validator_payload : list dict -> list dict -> Exc Payload.

Definition papers_for_agents (papers : list Paper) : list Paper :=
  if 5 <? List.length papers then firstn 5 papers else papers.

Definition papers_for_intelligence (papers : list Paper) : list Paper :=
  if 50 <=? List.length papers then
    let sampled_papers := firstn 20 papers in
    let sampled_papers :=
      if 30 <? List.length papers then
        sampled_papers
        ++ flat_map (fun i => match nth_error papers i with
                              | Some p => [p]
                              | None => []
                              end)
             (random_sample 20 (List.length papers)
                (Nat.min 10 (List.length papers - 20)))
      else sampled_papers in
    firstn 30 sampled_papers
  else papers.

(** The block that generates the field context. *)
Definition intelligence (papers : list Paper) (topic : str) : M unit :=
  fun self =>
    match research_intelligence, topic with
    | Some generate, _ :: _ =>
        match generate topic (papers_for_intelligence papers) papers with
        | Ret (context, data) =>
            (Ret tt, mkState (conversation_log self) context data)
        | Raise _ => (Ret tt, mkState (conversation_log self) [] JNull)
        end
    | _, _ => (Ret tt, self)
    end.

Definition analyzer_stage (papers : list Paper) (topic : str) : M dict :=
  context <<- read_field_context ;;
  analyzer_result <<- lift (analyze_papers (papers_for_agents papers) topic context) ;;
  rest <<- lift (analyzer_payload analyzer_result papers) ;;
  _ <<- append_entry (mkLogEntry 1 (py "Analyzer") [] (py "observation") rest) ;;
  ret analyzer_result.

Definition skeptic_stage (papers : list Paper) (topic : str)
    (analyzer_result : dict) : M dict :=
  context <<- read_field_context ;;
  skeptic_result <<- lift (critique (papers_for_agents papers) analyzer_result
                             topic context) ;;
  rest <<- lift (skeptic_payload analyzer_result skeptic_result) ;;
  _ <<- append_entry (mkLogEntry 2 (py "Skeptic") [py "Analyzer"]
                        (py "challenge") rest) ;;
  ret skeptic_result.

(** [[i for i in insights if isinstance(i, dict)]] *)
Definition only_dicts (insights : list json) : list dict :=
  flat_map (fun i => match i with JObj d => [d] | _ => [] end) insights.

Definition synthesizer_stage (papers : list Paper) (topic : str)
    (analyzer_result skeptic_result : dict) : M (list dict) :=
  context <<- read_field_context ;;
  insights <<- lift (synthesize (papers_for_agents papers) analyzer_result
                       skeptic_result topic context) ;;
  let validated_insights_for_stats := only_dicts insights in
  rest <<- lift (synthesizer_payload validated_insights_for_stats) ;;
  _ <<- append_entry (mkLogEntry 3 (py "Synthesizer")
                        [py "Analyzer"; py "Skeptic"] (py "synthesis") rest) ;;
  ret validated_insights_for_stats.

Definition validator_stage (topic : str)
    (validated_insights_for_stats : list dict) : M (list dict) :=
  context <<- read_field_context ;;
  validated_insights <<-
    lift (validate (map JObj validated_insights_for_stats)
            (match topic with [] => py "research" | _ => topic end) context) ;;
  rest <<- lift (validator_payload validated_insights_for_stats
                   validated_insights) ;;
  _ <<- append_entry (mkLogEntry 4 (py "Validator") [py "Synthesizer"]
                        (py "validation") rest) ;;
  ret validated_insights.

Definition generate_insights (papers : list Paper) (topic : str)
    : M (list dict) :=
  _ <<- clear_log ;;
  _ <<- intelligence papers topic ;;
  analyzer_result <<- analyzer_stage papers topic ;;
  skeptic_result <<- skeptic_stage papers topic analyzer_result ;;
  insights <<- synthesizer_stage papers topic analyzer_result skeptic_result ;;
  validator_stage topic insights.

End Pipeline.

End ResearchAgent.

(** ** Stubs: a paper source and a language model for the examples *)

Module Stub.

Import Arxiv.

Definition py_str (v : json) : str := [].

Definition float_repr (q : Q) : str := [].

Definition paper : Paper :=
  mkPaper (py "Drift detection in open worlds") (py "We study drift.")
          [py "A. Author"] 2023 (Some (py "http://arxiv.org/abs/0000.00000")).

(** A paper source that finds nothing, and one that finds [paper]. *)
Definition search_none (i : nat) (query : str) (n : Z) : Exc (list Paper) :=
  Ret [].

Definition search_one (i : nat) (query : str) (n : Z) : Exc (list Paper) :=
  Ret [paper].

Definition rejection : dict :=
  [(py "gap_still_valid", JBool false); (py "survival_score", JInt 3)].

Definition approval : dict :=
  [(py "gap_still_valid", JBool true); (py "survival_score", JInt 8)].

(** A language model that always answers with the rejection, and one
    that always answers with the approval, as JSON text. *)
Definition llm_rejects (i : nat) (prompt : ValidatorAgent.Prompt) : str :=
  PyJson.dumps float_repr (JObj rejection).

Definition llm_approves (i : nat) (prompt : ValidatorAgent.Prompt) : str :=
  PyJson.dumps float_repr (JObj approval).

Definition insight_a : dict :=
  [(py "title", JStr (py "Adaptive drift sensing"));
   (py "gap", JStr (py "Models lack real-time context sensing"));
   (py "novelty_score", JInt 7)].

Definition insight_b : dict :=
  [(py "title", JStr (py "Calibration under shift"));
   (py "gap", JStr (py "Calibration degrades when domains change"));
   (py "novelty_score", JFloat 9.5%Q)].

Definition topic : str := py "domain shift".

(** A language model for the synthesizer that answers with a list
    holding one bare string. *)
Definition llm_bare_string (prompt : SynthesizerAgent.Prompt) : str :=
  PyJson.dumps float_repr (JArr [JStr SynthesizerAgent.long_item]).

(** An entry of the feed without a [title] element, and one whose
    [published] text starts with no number. *)
Definition entry_without_title : Entry :=
  mkEntry None (Some (Some (py "An abstract."))) (Some (Some (py "http://arxiv.org/abs/1")))
          (Some (Some (py "2023-05-01T00:00:00Z"))) [].

Definition entry_with_bad_year : Entry :=
  mkEntry (Some (Some (py "A title"))) (Some (Some (py "An abstract.")))
          (Some (Some (py "http://arxiv.org/abs/2")))
          (Some (Some (py "n.d. 2023"))) [].

Definition entry_bare : Entry :=
  mkEntry (Some None) (Some None) None None [].

(** The pipeline with agents that return at once. *)
Definition analyze_papers (papers : list Paper) (topic context : str) : Exc dict :=
  Ret [].
Definition critique (papers : list Paper) (analysis : dict) (topic context : str)
    : Exc dict := Ret [].
Definition synthesize (papers : list Paper) (analysis critique : dict)
    (topic context : str) : Exc (list json) := Ret [JObj insight_a].
Definition validate (insights : list json) (topic context : str)
    : Exc (list dict) := Ret [insight_a].
Definition random_sample (a b k : nat) : list nat := [].

(** An interpreter with its defaults: a recursion limit of 1000, which
    leaves the decoder room for no more than 1000 nested arrays and
    objects, and 4300 digits for an integer.  The decimals of the
    examples are floats as they stand, in lowest terms. *)
Definition interp : PyJson.Interp :=
  PyJson.mkInterp 1000 4300 (fun q => Some (Qred q)).

(** [json.loads] of that interpreter. *)
Definition json_loads : str -> Exc json := PyJson.loads interp.

(** [repr] for the floats of the examples. *)
Definition show_float (q : Q) : str :=
  if Qeq_bool q (17 # 2) then py "8.5"
  else if Qeq_bool q (1 # 4) then py "0.25"
  else py "0.0".

(** A document with every kind of value. *)
Definition document : json :=
  JObj [(py "a", JArr [JInt 1; JBool true; JNull; JStr (py "x y");
                       JInt (-120); JFloat (17 # 2)]);
        (py "b", JObj [(py "score", JFloat (1 # 4))]);
        (py "c", JArr [])].

(** An integer of 4301 digits, and 1001 arrays one inside the other. *)
Definition long_integer : json := JInt (10 ^ 4300).

Definition deep_array : json := PyJson.nested 1000.

End Stub.

(** * Proofs *)

#[local] Unset Implicit Arguments.

(** ** The round trip through [json.dumps] and [json.loads] *)

Section CodecFacts.

Import PyJson.

Lemma scan_string_escape c tl :
  scan_string (escape_char c ++ tl)
  = bind (scan_string tl) (fun x => match x with (t, r) => Ret (c :: t, r) end).
Proof.
  destruct c as [[] [] [] [] [] [] [] []]; reflexivity.
Qed.

Lemma scan_string_quote s rest :
  scan_string (flat_map escape_char s ++ dquote :: rest) = Ret (s, rest).
Proof.
  induction s as [|c s IH]; [reflexivity|].
  cbn [flat_map]. rewrite <- app_assoc, scan_string_escape, IH. reflexivity.
Qed.

Lemma scan_string_quoted s rest :
  exists body, quote s ++ rest = dquote :: body
               /\ scan_string body = Ret (s, rest).
Proof.
  exists (flat_map escape_char s ++ dquote :: rest). split.
  - unfold quote. cbn [app]. now rewrite <- app_assoc.
  - apply scan_string_quote.
Qed.

Lemma scan_digits_show d rest :
  ends_number rest = true ->
  scan_digits (show_uint d ++ rest) = (d, rest).
Proof.
  intros Hr.
  induction d; cbn [show_uint app scan_digits];
    try (change (is_digit _) with true; cbn iota; rewrite IHd; reflexivity).
  destruct rest as [|c rest']; [reflexivity|].
  cbn [scan_digits]. cbn [ends_number] in Hr.
  destruct (is_digit c); [discriminate|reflexivity].
Qed.

Lemma to_uint_head p :
  match Pos.to_uint p with
  | Decimal.Nil | Decimal.D0 _ => False
  | _ => True
  end.
Proof.
  pose proof (DecimalPos.Unsigned.to_uint_nonnil p) as Hnil.
  pose proof (DecimalPos.Unsigned.to_uint_nonzero p) as Hz.
  pose proof (DecimalPos.Unsigned.to_of (Pos.to_uint p)) as Hn.
  rewrite DecimalPos.Unsigned.of_to in Hn. cbn [N.to_uint] in Hn.
  destruct (Pos.to_uint p) as [|d| | | | | | | | |]; try exact I; [congruence|].
  rewrite unorm_D0 in Hn. unfold Decimal.unorm in Hn.
  destruct (Decimal.nzhead d) eqn:E; try discriminate.
  - injection Hn as Hn. subst d. now apply Hz.
  - now apply nzhead_nonzero in E.
Qed.

Lemma scan_int_part_show p rest :
  ends_number rest = true ->
  scan_int_part (show_uint (Pos.to_uint p) ++ rest)
  = Some (Pos.to_uint p, rest).
Proof.
  intros Hr. pose proof (to_uint_head p) as Hh.
  pose proof (scan_digits_show (Pos.to_uint p) rest Hr) as Hs.
  destruct (Pos.to_uint p); try contradiction;
    cbn [show_uint app] in *; unfold scan_int_part;
    change (ord _ =? 48) with false; change (is_digit _) with true;
    cbn iota; now rewrite Hs.
Qed.

Lemma ends_number_no_frac rest :
  ends_number rest = true -> scan_frac rest = None /\ scan_exp rest = None.
Proof.
  destruct rest as [|c rest]; [now split|]. cbn [ends_number].
  rewrite !andb_true_iff, !negb_true_iff. intros [[[Hd Hp] He] HE]. split.
  - unfold scan_frac.
    destruct c as [[] [] [] [] [] [] [] []]; try reflexivity; discriminate.
  - unfold scan_exp. now rewrite He, HE.
Qed.

Variable interp : Interp.

Lemma scan_unsigned_int neg s i rest :
  scan_int_part s = Some (i, rest) -> ends_number rest = true ->
  scan_unsigned interp neg s
  = if digits_ok interp (Decimal.nb_digits i)
    then Ret (JInt (if neg then (- Z.of_uint i)%Z else Z.of_uint i), rest)
    else Raise ValueError.
Proof.
  intros Hi Hr. destruct (ends_number_no_frac rest Hr) as [Hf He].
  unfold scan_unsigned. now rewrite Hi, Hf, He.
Qed.

(** The text of an integer is read as the integer when its digits are not
    too many, and raises [ValueError] when they are. *)
Lemma scan_number_show z rest :
  ends_number rest = true ->
  scan_number interp (show_int z ++ rest)
  = if digits_ok interp (int_digits z) then Ret (JInt z, rest)
    else Raise ValueError.
Proof.
  intros Hr. unfold show_int, int_digits. destruct z as [|p|p]; cbn [Z.to_int].
  - exact (scan_unsigned_int false ("0" :: rest) (Decimal.D0 Decimal.Nil) rest
             eq_refl Hr).
  - pose proof (to_uint_head p) as Hh.
    pose proof (scan_int_part_show p rest Hr) as Hi.
    rewrite <- (DecimalZ.of_to (Z.pos p)) at 1. cbn [Z.to_int Z.of_int].
    rewrite <- (scan_unsigned_int false _ _ _ Hi Hr).
    destruct (Pos.to_uint p); try contradiction; reflexivity.
  - rewrite <- (DecimalZ.of_to (Z.neg p)) at 1. cbn [Z.to_int Z.of_int app].
    exact (scan_unsigned_int true _ (Pos.to_uint p) rest
             (scan_int_part_show p rest Hr) Hr).
Qed.

Variable float_repr : Q -> str.

Local Abbreviation readable := (readable interp float_repr).
Local Abbreviation scans := (scans interp float_repr).

Lemma dumps_arr l : dumps float_repr (JArr l) = "[" :: dumps_items float_repr l ++ ["]"].
Proof. reflexivity. Qed.

Lemma dumps_obj m : dumps float_repr (JObj m) = "{" :: dumps_members float_repr m ++ ["}"].
Proof. reflexivity. Qed.

Lemma ends_value_number s : ends_value s = true -> ends_number s = true.
Proof.
  destruct s as [|c s]; [reflexivity|]. cbn [ends_value ends_number].
  destruct c as [[] [] [] [] [] [] [] []]; try discriminate; reflexivity.
Qed.

Lemma show_uint_starts p rest :
  starts_value (show_uint (Pos.to_uint p) ++ rest) = true.
Proof.
  pose proof (to_uint_head p). destruct (Pos.to_uint p); try contradiction; reflexivity.
Qed.

Lemma number_start_app s rest :
  number_start s = true -> number_start (s ++ rest) = true.
Proof.
  destruct s as [|c s]; [discriminate|]. destruct s as [|d s].
  - cbn [number_start app].
    destruct c as [[] [] [] [] [] [] [] []]; try discriminate; reflexivity.
  - intros H. exact H.
Qed.

Lemma number_start_starts s :
  number_start s = true -> starts_value s = true.
Proof.
  destruct s as [|c s]; [discriminate|].
  destruct c as [[] [] [] [] [] [] [] []]; try reflexivity;
    destruct s; discriminate.
Qed.

Lemma show_int_number_start z : number_start (show_int z) = true.
Proof.
  unfold show_int. destruct z as [|p|p]; cbn [Z.to_int]; [reflexivity| |];
    pose proof (to_uint_head p); destruct (Pos.to_uint p);
    try contradiction; reflexivity.
Qed.

Lemma dumps_starts v rest :
  readable v -> starts_value (dumps float_repr v ++ rest) = true.
Proof.
  intros Hv. destruct v as [|[]|z|q|s|l|m]; try reflexivity.
  - cbn [dumps]. apply number_start_starts, number_start_app, show_int_number_start.
  - cbn [dumps]. inversion Hv as [| | |? [Hq _]| | |]; subst.
    now apply number_start_starts, number_start_app.
Qed.

Lemma skip_ws_starts s : starts_value s = true -> skip_ws s = s.
Proof.
  destruct s as [|c s]; [discriminate|].
  destruct c as [[] [] [] [] [] [] [] []]; try discriminate; reflexivity.
Qed.

Lemma skip_ws_ends s : ends_value s = true -> skip_ws s = s.
Proof.
  destruct s as [|c s]; [reflexivity|].
  destruct c as [[] [] [] [] [] [] [] []]; try discriminate; reflexivity.
Qed.

(** A text that starts as a number goes to [scan_number]. *)
Lemma scan_once_number n d s :
  number_start s = true ->
  scan_once interp (S n) d s = scan_number interp s.
Proof.
  destruct s as [|c s]; [discriminate|].
  destruct c as [[] [] [] [] [] [] [] []]; try discriminate; try reflexivity.
  destruct s as [|e s]; [discriminate|].
  destruct e as [[] [] [] [] [] [] [] []]; try discriminate; reflexivity.
Qed.

Lemma skip_ws_space s : skip_ws (" " :: s) = skip_ws s.
Proof. reflexivity. Qed.

Lemma scan_items_dumps l :
  Forall scans l -> l <> [] -> Forall readable l ->
  forall fuel d rest, need_items l <= fuel -> depth_items l <= d ->
  scan_items interp fuel d (dumps_items float_repr l ++ "]" :: rest) = Ret (l, rest).
Proof.
  induction 1 as [|x l Hx Hl IH]; [congruence|]. intros _ Hp fuel d rest Hfuel Hd.
  inversion Hp as [|? ? Hpx Hpl]; subst.
  cbn [need_items] in Hfuel. cbn [depth_items] in Hd.
  destruct fuel as [|n]; [lia|].
  cbn [scan_items]. destruct l as [|y l].
  - cbn [dumps_items]. rewrite (Hx Hpx n d ("]" :: rest)) by (reflexivity || lia).
    reflexivity.
  - change (dumps_items float_repr (x :: y :: l))
      with (dumps float_repr x ++ py ", " ++ dumps_items float_repr (y :: l)).
    rewrite <- !app_assoc.
    rewrite (Hx Hpx n d) by (reflexivity || lia).
    cbn [bind py list_ascii_of_string app skip_ws].
    change (is_json_ws ",") with false. change (is_json_ws " ") with true.
    cbn iota.
    assert (Hs : starts_value (dumps_items float_repr (y :: l) ++ "]" :: rest) = true).
    { inversion Hpl as [|? ? Hpy _]; subst.
      destruct l; cbn [dumps_items]; rewrite <- ?app_assoc;
        now apply dumps_starts. }
    rewrite skip_ws_space, (skip_ws_starts _ Hs), IH
      by (congruence || assumption || lia).
    reflexivity.
Qed.

Lemma scan_members_dumps m :
  Forall (fun kv => scans (snd kv)) m -> m <> [] ->
  Forall (fun kv => readable (snd kv)) m ->
  forall fuel d rest, need_members m <= fuel -> depth_members m <= d ->
  scan_members interp fuel d (dumps_members float_repr m ++ "}" :: rest)
  = Ret (m, rest).
Proof.
  induction 1 as [|[k x] m Hx Hm IH]; [congruence|].
  intros _ Hp fuel d rest Hfuel Hd.
  inversion Hp as [|? ? Hpx Hpm]; subst. cbn [snd] in Hpx.
  cbn [need_members snd] in Hfuel. cbn [depth_members snd] in Hd.
  destruct fuel as [|n]; [lia|].
  cbn [snd] in Hx.
  assert (Hval : forall tail, ends_value tail = true ->
            scan_members interp (S n) d
              (quote k ++ py ": " ++ dumps float_repr x ++ tail)
            = bind (Ret (x, tail)) (fun xr =>
                match skip_ws (snd xr) with
                | "}" :: r4 => Ret ([(k, fst xr)], r4)
                | "," :: r4 =>
                    bind (scan_members interp n d (skip_ws r4)) (fun mr =>
                      Ret ((k, fst xr) :: fst mr, snd mr))
                | _ => Raise JSONDecodeError
                end)).
  { intros tail Ht.
    destruct (scan_string_quoted k (py ": " ++ dumps float_repr x ++ tail))
      as (body & -> & Hb).
    cbn [scan_members]. rewrite Hb.
    cbn [bind py list_ascii_of_string app].
    change (skip_ws (":" :: " " :: dumps float_repr x ++ tail))
      with (":" :: " " :: dumps float_repr x ++ tail).
    cbn iota. rewrite skip_ws_space, skip_ws_starts by now apply dumps_starts.
    rewrite (Hx Hpx n d tail) by (assumption || lia). cbn [bind fst snd].
    destruct (skip_ws tail) as [|c r4]; [reflexivity|].
    destruct c as [[] [] [] [] [] [] [] []]; try reflexivity.
    destruct (scan_members interp n d (skip_ws r4)) as [[]|]; reflexivity. }
  destruct m as [|[k' y] m].
  - cbn [dumps_members]. rewrite <- !app_assoc, Hval by reflexivity.
    reflexivity.
  - change (dumps_members float_repr ((k, x) :: (k', y) :: m))
      with (quote k ++ py ": " ++ dumps float_repr x ++ py ", "
            ++ dumps_members float_repr ((k', y) :: m)).
    rewrite <- !app_assoc, Hval by reflexivity.
    cbn [bind py list_ascii_of_string app snd fst].
    change (skip_ws ("," :: " " :: ?s)) with ("," :: " " :: s).
    cbn iota. rewrite skip_ws_space.
    assert (Hs : skip_ws (dumps_members float_repr ((k', y) :: m) ++ "}" :: rest)
                 = dumps_members float_repr ((k', y) :: m) ++ "}" :: rest).
    { destruct m as [|[]]; reflexivity. }
    rewrite Hs, IH by (congruence || assumption || lia). reflexivity.
Qed.

Lemma str_eqb_eq a b : str_eqb a b = true <-> a = b.
Proof.
  unfold str_eqb. destruct (list_eq_dec ascii_dec a b); split; congruence.
Qed.

Lemma str_eqb_refl a : str_eqb a a = true.
Proof. now apply str_eqb_eq. Qed.

Lemma dict_set_fresh k v d :
  existsb (str_eqb k) (map fst d) = false -> dict_set k v d = d ++ [(k, v)].
Proof.
  induction d as [|[k' v'] d IH]; [reflexivity|]. cbn [map fst existsb dict_set].
  intros H. apply orb_false_iff in H as [Hk Hd]. rewrite Hk, IH by assumption.
  reflexivity.
Qed.

Lemma dict_of_pairs_from acc m :
  nodup_keys (map fst (acc ++ m)) = true ->
  fold_left (fun d kv => dict_set (fst kv) (snd kv) d) m acc = acc ++ m.
Proof.
  revert acc. induction m as [|[k v] m IH]; intros acc H.
  - now rewrite List.app_nil_r.
  - cbn [fold_left fst snd].
    assert (Hfresh : existsb (str_eqb k) (map fst acc) = false).
    { clear IH. induction acc as [|[k' v'] acc IHa]; [reflexivity|].
      cbn [app map fst nodup_keys] in H. apply andb_true_iff in H as [Hk' H].
      cbn [map fst existsb]. rewrite (IHa H), orb_false_r.
      rewrite negb_true_iff, map_app, existsb_app in Hk'.
      apply orb_false_iff in Hk' as [_ Hk']. cbn [map fst existsb] in Hk'.
      apply orb_false_iff in Hk' as [Hk' _].
      destruct (str_eqb k k') eqn:E; [|reflexivity].
      apply str_eqb_eq in E. subst k'. now rewrite str_eqb_refl in Hk'. }
    rewrite dict_set_fresh by assumption.
    rewrite IH; rewrite <- app_assoc; [reflexivity|exact H].
Qed.

Lemma dict_of_pairs_nodup m :
  nodup_keys (map fst m) = true -> dict_of_pairs m = m.
Proof. intros H. apply (dict_of_pairs_from [] m H). Qed.

Lemma scan_array n d r :
  starts_value r = true ->
  scan_once interp (S n) (S d) ("[" :: r)
  = bind (scan_items interp n d r) (fun lr => Ret (JArr (fst lr), snd lr)).
Proof.
  intros Hs. cbn [scan_once]. rewrite (skip_ws_starts _ Hs).
  destruct r as [|c r]; [discriminate|].
  destruct c as [[] [] [] [] [] [] [] []]; try discriminate;
    cbn iota; destruct (scan_items interp n d _) as [[]|]; reflexivity.
Qed.

Lemma scan_object n d r :
  starts_value r = true ->
  scan_once interp (S n) (S d) ("{" :: r)
  = bind (scan_members interp n d r)
         (fun mr => Ret (JObj (dict_of_pairs (fst mr)), snd mr)).
Proof.
  intros Hs. cbn [scan_once]. rewrite (skip_ws_starts _ Hs).
  destruct r as [|c r]; [discriminate|].
  destruct c as [[] [] [] [] [] [] [] []]; try discriminate;
    cbn iota; destruct (scan_members interp n d _) as [[]|]; reflexivity.
Qed.

Lemma scans_all v : scans v.
Proof.
  induction v as [|b|z|q|s|l IH|m IH] using json_ind;
    intros Hp fuel d rest Hfuel Hd Hr;
    (destruct fuel as [|n]; [cbn in Hfuel; lia|]).
  - reflexivity.
  - destruct b; reflexivity.
  - cbn [dumps]. inversion Hp as [| |? Hz| | | |]; subst.
    rewrite scan_once_number
      by apply number_start_app, show_int_number_start.
    rewrite scan_number_show by now apply ends_value_number.
    now rewrite Hz.
  - cbn [dumps]. inversion Hp as [| | |? (Hs & _ & Hq)| | |]; subst.
    rewrite scan_once_number by now apply number_start_app.
    now apply Hq.
  - cbn [dumps]. destruct (scan_string_quoted s rest) as (body & -> & Hb).
    cbn [scan_once]. rewrite Hb. reflexivity.
  - rewrite dumps_arr. cbn [app]. rewrite <- app_assoc. cbn [app].
    change (depth (JArr l)) with (S (depth_items l)) in Hd.
    destruct d as [|d]; [lia|].
    destruct l as [|x l]; [reflexivity|].
    inversion Hp as [| | | | |? Hl|]; subst.
    change (need (JArr (x :: l))) with (S (need_items (x :: l))) in Hfuel.
    rewrite scan_array.
    + rewrite (scan_items_dumps (x :: l)) by (assumption || congruence || lia).
      reflexivity.
    + inversion Hl as [|? ? Hpx _]; subst.
      destruct l; cbn [dumps_items]; rewrite <- ?app_assoc; now apply dumps_starts.
  - rewrite dumps_obj. cbn [app]. rewrite <- app_assoc. cbn [app].
    change (depth (JObj m)) with (S (depth_members m)) in Hd.
    destruct d as [|d]; [lia|].
    destruct m as [|[k x] m]; [reflexivity|].
    inversion Hp as [| | | | | |? Hk Hm]; subst.
    change (need (JObj ((k, x) :: m))) with (S (need_members ((k, x) :: m))) in Hfuel.
    rewrite scan_object.
    + rewrite (scan_members_dumps ((k, x) :: m)) by (assumption || congruence || lia).
      cbn [bind fst snd]. now rewrite dict_of_pairs_nodup.
    + destruct m as [|[]]; reflexivity.
Qed.

Lemma starts_value_length s : starts_value s = true -> 1 <= List.length s.
Proof. destruct s; [discriminate|]. cbn [List.length]. lia. Qed.

Lemma need_le_length v :
  readable v -> need v <= List.length (dumps float_repr v).
Proof.
  induction v as [|b|z|q|s|l IH|m IH] using json_ind; intros Hp.
  - cbn. lia.
  - destruct b; cbn; lia.
  - apply starts_value_length. rewrite <- (List.app_nil_r (dumps _ _)).
    now apply dumps_starts.
  - apply starts_value_length. rewrite <- (List.app_nil_r (dumps _ _)).
    now apply dumps_starts.
  - cbn [dumps need quote List.length]. lia.
  - rewrite dumps_arr. change (need (JArr l)) with (S (need_items l)).
    cbn [List.length]. rewrite length_app. cbn [List.length].
    inversion Hp as [| | | | |? Hl|]; subst. clear Hp.
    enough (need_items l <= List.length (dumps_items float_repr l) + 1) by lia.
    revert Hl. induction IH as [|x l Hx _ IHl]; intros Hl; [cbn; lia|].
    inversion Hl as [|? ? Hpx Hpl]; subst.
    specialize (Hx Hpx). specialize (IHl Hpl).
    cbn [need_items].
    destruct l as [|y l].
    + cbn [dumps_items need_items]. lia.
    + change (dumps_items float_repr (x :: y :: l))
        with (dumps float_repr x ++ py ", " ++ dumps_items float_repr (y :: l)).
      rewrite !length_app. cbn [py list_ascii_of_string List.length]. lia.
  - rewrite dumps_obj. change (need (JObj m)) with (S (need_members m)).
    cbn [List.length]. rewrite length_app. cbn [List.length].
    inversion Hp as [| | | | | |? Hk Hm]; subst. clear Hp Hk.
    enough (need_members m <= List.length (dumps_members float_repr m) + 1) by lia.
    revert Hm. induction IH as [|[k x] m Hx _ IHm]; intros Hm; [cbn; lia|].
    inversion Hm as [|? ? Hpx Hpm]; subst.
    cbn [snd] in Hx, Hpx. specialize (Hx Hpx). specialize (IHm Hpm).
    cbn [need_members snd].
    destruct m as [|[k' y] m].
    + cbn [dumps_members need_members]. rewrite !length_app. lia.
    + change (dumps_members float_repr ((k, x) :: (k', y) :: m))
        with (quote k ++ py ": " ++ dumps float_repr x ++ py ", "
              ++ dumps_members float_repr ((k', y) :: m)).
      rewrite !length_app. cbn [py list_ascii_of_string List.length]. lia.
Qed.

(** The decoder reads the text of a readable value back, when the value
    is not nested deeper than the interpreter has room for. *)
Lemma loads_dumps v :
  readable v -> depth v <= max_depth interp ->
  loads interp (dumps float_repr v) = Ret v.
Proof.
  intros Hp Hd. unfold loads.
  pose proof (dumps_starts v [] Hp) as Hs. rewrite List.app_nil_r in Hs.
  rewrite (skip_ws_starts _ Hs).
  pose proof (scans_all v Hp (2 * List.length (dumps float_repr v) + 2)
                (max_depth interp) []) as H.
  rewrite List.app_nil_r in H. rewrite H; [reflexivity| |exact Hd|reflexivity].
  pose proof (need_le_length v Hp). lia.
Qed.

Lemma closes_value_app a b : b <> [] -> closes_value (a ++ b) = closes_value b.
Proof.
  intros Hb. induction a as [|c a IH]; [reflexivity|].
  cbn [app closes_value]. rewrite IH.
  destruct (a ++ b) eqn:E; [|reflexivity].
  apply app_eq_nil in E as [_ E]. congruence.
Qed.

Lemma closes_value_last s :
  closes_value s = true -> exists t c, s = t ++ [c] /\ is_space c = false.
Proof.
  induction s as [|c s IH]; [discriminate|]. destruct s as [|d s].
  - cbn. intros H. exists [], c. split; [reflexivity|now apply negb_true_iff].
  - intros H. destruct (IH H) as (t & e & -> & He).
    exists (c :: t), e. now split.
Qed.

Lemma rstrip_closed s : closes_value s = true -> rstrip s = s.
Proof.
  intros H. destruct (closes_value_last s H) as (t & c & -> & Hc).
  unfold rstrip. rewrite rev_app_distr. cbn [rev app lstrip]. rewrite Hc.
  change (c :: rev t) with (rev [c] ++ rev t).
  now rewrite <- rev_app_distr, rev_involutive.
Qed.

Lemma lstrip_starts s : starts_value s = true -> lstrip s = s.
Proof.
  destruct s as [|c s]; [discriminate|].
  destruct c as [[] [] [] [] [] [] [] []]; try discriminate; reflexivity.
Qed.

Lemma show_uint_closes d :
  d <> Decimal.Nil -> closes_value (show_uint d) = true.
Proof.
  induction d; intros Hd; try congruence;
    (destruct d; [reflexivity| apply IHd; discriminate ..]).
Qed.

Lemma dumps_closes v : readable v -> closes_value (dumps float_repr v) = true.
Proof.
  intros Hv. destruct v as [|[]|z|q|s|l|m]; try reflexivity.
  - cbn [dumps]. unfold show_int. destruct z as [|p|p]; cbn [Z.to_int].
    + reflexivity.
    + apply show_uint_closes, DecimalPos.Unsigned.to_uint_nonnil.
    + change ("-" :: show_uint (Pos.to_uint p))
        with (["-"] ++ show_uint (Pos.to_uint p)).
      rewrite (closes_value_app ["-"]).
      * apply show_uint_closes, DecimalPos.Unsigned.to_uint_nonnil.
      * pose proof (to_uint_head p). now destruct (Pos.to_uint p).
  - cbn [dumps]. now inversion Hv as [| | |? (_ & Hc & _)| | |].
  - cbn [dumps]. unfold quote.
    change (dquote :: flat_map escape_char s ++ [dquote])
      with ((dquote :: flat_map escape_char s) ++ [dquote]).
    now rewrite closes_value_app.
  - rewrite dumps_arr. change ("[" :: dumps_items float_repr l ++ ["]"])
      with (("[" :: dumps_items float_repr l) ++ ["]"]). now rewrite closes_value_app.
  - rewrite dumps_obj. change ("{" :: dumps_members float_repr m ++ ["}"])
      with (("{" :: dumps_members float_repr m) ++ ["}"]). now rewrite closes_value_app.
Qed.

Lemma strip_dumps v : readable v -> strip (dumps float_repr v) = dumps float_repr v.
Proof.
  intros Hp. unfold strip. rewrite lstrip_starts.
  - now apply rstrip_closed, dumps_closes.
  - rewrite <- (List.app_nil_r (dumps _ _)). now apply dumps_starts.
Qed.

Lemma dumps_not_error v :
  readable v ->
  match dumps float_repr v with [] => true | _ => false end
  || startswith (py "Error:") (dumps float_repr v) = false.
Proof.
  intros Hp. pose proof (dumps_starts v [] Hp) as Hs.
  rewrite List.app_nil_r in Hs. destruct (dumps float_repr v) as [|c s]; [discriminate|].
  destruct c as [[] [] [] [] [] [] [] []]; try discriminate; reflexivity.
Qed.


End CodecFacts.

(** The floats of the examples are read back. *)
Lemma show_float_reads_back q :
  q = (17 # 2)%Q \/ q = (1 # 4)%Q ->
  PyJson.reads_back Stub.interp Stub.show_float q.
Proof.
  intros [-> | ->]; (split; [reflexivity|split; [reflexivity|]]);
    intros [|c rest] H; try reflexivity;
    destruct c as [[] [] [] [] [] [] [] []]; try discriminate; reflexivity.
Qed.



(** ** [extract_json]: the steps and what they select *)

Section ExtractFacts.

Import LLM.

Lemma from_first_split o text s :
  from_first o text = Some s <->
  exists pre r, text = pre ++ o :: r /\ ~ In o pre /\ s = o :: r.
Proof.
  revert s. induction text as [|x text IH]; intros s; cbn [from_first].
  - split; [discriminate|]. intros (pre & r & E & _). now destruct pre.
  - destruct (Ascii.eqb x o) eqn:Ex.
    + apply Ascii.eqb_eq in Ex. subst x. split.
      * intros [= <-]. exists [], text. now repeat split.
      * intros (pre & r & E & Hpre & ->). destruct pre as [|y pre].
        -- now injection E as <-.
        -- injection E as <- _. exfalso. apply Hpre. now left.
    + apply Ascii.eqb_neq in Ex. rewrite IH. split.
      * intros (pre & r & -> & Hpre & ->). exists (x :: pre), r.
        repeat split; try reflexivity. intros [->|H]; [congruence|auto].
      * intros (pre & r & E & Hpre & ->). destruct pre as [|y pre].
        -- injection E as -> _. congruence.
        -- injection E as <- ->. exists pre, r. repeat split; try reflexivity.
           intros H. apply Hpre. now right.
Qed.

Lemma from_first_none o text : from_first o text = None <-> ~ In o text.
Proof.
  induction text as [|x text IH]; cbn [from_first In]; [tauto|].
  destruct (Ascii.eqb x o) eqn:Ex.
  - apply Ascii.eqb_eq in Ex. split; [discriminate|]. intros H. exfalso. auto.
  - apply Ascii.eqb_neq in Ex. rewrite IH. tauto.
Qed.

Lemma to_last_none c s : to_last c s = None <-> ~ In c s.
Proof.
  induction s as [|x s IH]; cbn [to_last In]; [tauto|].
  destruct (to_last c s) eqn:E.
  - split; [discriminate|]. intros H. exfalso.
    assert (Hn : ~ In c s) by tauto. apply IH in Hn. discriminate.
  - destruct (Ascii.eqb x c) eqn:Ex.
    + apply Ascii.eqb_eq in Ex. split; [discriminate|]. intros H. exfalso. auto.
    + apply Ascii.eqb_neq in Ex. assert (~ In c s) by now apply IH. tauto.
Qed.

Lemma to_last_split c s p :
  to_last c s = Some p <->
  exists mid post, s = mid ++ c :: post /\ ~ In c post /\ p = mid ++ [c].
Proof.
  revert p. induction s as [|x s IH]; intros p; cbn [to_last].
  - split; [discriminate|]. intros (mid & post & E & _). now destruct mid.
  - destruct (to_last c s) as [q|] eqn:E.
    + destruct (proj1 (IH q) eq_refl) as (mid & post & -> & Hpost & ->).
      split.
      * intros [= <-]. exists (x :: mid), post. now repeat split.
      * intros (mid' & post' & E' & Hpost' & ->). f_equal.
        destruct mid' as [|y mid'].
        -- injection E' as -> E'. exfalso. apply Hpost'. rewrite <- E'.
           apply in_or_app. right. now left.
        -- injection E' as <- E'. cbn [app]. f_equal.
           assert (Hq : Some (mid ++ [c]) = Some (mid' ++ [c])).
           { apply IH. now exists mid', post'. }
           congruence.
    + apply to_last_none in E. destruct (Ascii.eqb x c) eqn:Ex.
      * apply Ascii.eqb_eq in Ex. subst x. split.
        -- intros [= <-]. exists [], s. now repeat split.
        -- intros (mid & post & E' & Hpost & ->). destruct mid as [|y mid].
           ++ reflexivity.
           ++ injection E' as <- ->. exfalso. apply E, in_or_app. right. now left.
      * apply Ascii.eqb_neq in Ex. split; [discriminate|].
        intros (mid & post & E' & Hpost & ->). exfalso.
        destruct mid as [|y mid].
        -- injection E' as -> _. congruence.
        -- injection E' as _ ->. apply E, in_or_app. right. now left.
Qed.

Lemma search_span_split o c text span :
  search_span o c text = Some span <->
  exists pre mid post,
    text = pre ++ o :: mid ++ c :: post /\ ~ In o pre /\ ~ In c post
    /\ span = o :: mid ++ [c].
Proof.
  unfold search_span. split.
  - destruct (from_first o text) as [[|x r]|] eqn:E; try discriminate.
    apply from_first_split in E as (pre & r' & -> & Hpre & [= -> ->]).
    destruct (to_last c r') as [p|] eqn:El; [|discriminate]. cbn [option_map].
    intros [= <-]. apply to_last_split in El as (mid & post & -> & Hpost & ->).
    now exists pre, mid, post.
  - intros (pre & mid & post & -> & Hpre & Hpost & ->).
    assert (E : from_first o (pre ++ o :: mid ++ c :: post)
                = Some (o :: mid ++ c :: post)).
    { apply from_first_split. now exists pre, (mid ++ c :: post). }
    rewrite E.
    assert (El : to_last c (mid ++ c :: post) = Some (mid ++ [c])).
    { apply to_last_split. now exists mid, post. }
    now rewrite El.
Qed.

Lemma count_brackets_first o c (Hoc : Ascii.eqb c o = false) s :
  forall cnt i,
  match count_brackets o c cnt i s with
  | 0 => forall k, nth_error s k = Some c ->
                   (cnt + depth o c (firstn (S k) s))%Z <> 0%Z
  | S e =>
      exists k, S e = i + S k /\ nth_error s k = Some c
                /\ (cnt + depth o c (firstn (S k) s))%Z = 0%Z
                /\ forall j, j < k -> nth_error s j = Some c ->
                              (cnt + depth o c (firstn (S j) s))%Z <> 0%Z
  end.
Proof.
  induction s as [|ch s IH]; intros cnt i.
  - cbn [count_brackets]. intros k. now destruct k.
  - cbn [count_brackets]. destruct (Ascii.eqb ch o) eqn:Eo.
    + apply Ascii.eqb_eq in Eo. subst ch. specialize (IH (cnt + 1)%Z (S i)).
      assert (Hd : forall k, depth o c (firstn (S (S k)) (o :: s))
                             = (1 + depth o c (firstn (S k) s))%Z).
      { intros k. cbn [firstn depth]. now rewrite Ascii.eqb_refl. }
      assert (Hne : Some o <> Some c).
      { intros [= E]. subst c. now rewrite Ascii.eqb_refl in Hoc. }
      destruct (count_brackets o c (cnt + 1) (S i) s) as [|e].
      * intros [|k] Hk; [now cbn in Hk|]. cbn [nth_error] in Hk.
        rewrite Hd. specialize (IH k Hk). lia.
      * destruct IH as (k & He & Hk & Hz & Hmin). exists (S k).
        repeat split; [lia|exact Hk|rewrite Hd; lia|].
        intros [|j] Hj Hnj; [now cbn in Hnj|]. cbn [nth_error] in Hnj.
        rewrite Hd. assert (Hjk : j < k) by lia. specialize (Hmin j Hjk Hnj). lia.
    + destruct (Ascii.eqb ch c) eqn:Ec.
      * apply Ascii.eqb_eq in Ec. subst ch.
        assert (Hd : forall k, depth o c (firstn (S k) (c :: s))
                               = (-1 + depth o c (firstn k s))%Z).
        { intros k. cbn [firstn depth]. now rewrite Eo, Ascii.eqb_refl. }
        destruct (cnt - 1 =? 0)%Z eqn:Ez.
        -- apply Z.eqb_eq in Ez. replace (i + 1) with (S i) by lia.
           exists 0. repeat split; [lia| |lia].
           rewrite Hd. cbn [firstn depth]. lia.
        -- apply Z.eqb_neq in Ez. specialize (IH (cnt - 1)%Z (S i)).
           destruct (count_brackets o c (cnt - 1) (S i) s) as [|e].
           ++ intros [|k] Hk.
              ** rewrite Hd. cbn [firstn depth]. lia.
              ** cbn [nth_error] in Hk. rewrite Hd. specialize (IH k Hk). lia.
           ++ destruct IH as (k & He & Hk & Hz & Hmin). exists (S k).
              repeat split; [lia|exact Hk|rewrite Hd; lia|].
              intros [|j] Hj Hnj.
              ** rewrite Hd. cbn [firstn depth]. lia.
              ** cbn [nth_error] in Hnj. rewrite Hd.
                 assert (Hjk : j < k) by lia. specialize (Hmin j Hjk Hnj). lia.
      * assert (Hd : forall k, depth o c (firstn (S k) (ch :: s))
                               = depth o c (firstn k s)).
        { intros k. cbn [firstn depth]. now rewrite Eo, Ec. }
        assert (Hne : Some ch <> Some c).
        { intros [= E]. subst c. now rewrite Ascii.eqb_refl in Ec. }
        specialize (IH cnt (S i)).
        destruct (count_brackets o c cnt (S i) s) as [|e].
        -- intros [|k] Hk; [now cbn in Hk|]. cbn [nth_error] in Hk.
           rewrite Hd. exact (IH k Hk).
        -- destruct IH as (k & He & Hk & Hz & Hmin). exists (S k).
           repeat split; [lia|exact Hk|rewrite Hd; exact Hz|].
           intros [|j] Hj Hnj; [now cbn in Hnj|]. cbn [nth_error] in Hnj.
           rewrite Hd. apply Hmin; [lia|exact Hnj].
Qed.

Lemma strip_bracketed o c mid :
  is_space o = false -> is_space c = false ->
  strip (o :: mid ++ [c]) = o :: mid ++ [c].
Proof.
  intros Ho Hc. unfold strip. cbn [lstrip]. rewrite Ho.
  apply rstrip_closed. change (o :: mid ++ [c]) with ((o :: mid) ++ [c]).
  rewrite closes_value_app by discriminate. cbn. now rewrite Hc.
Qed.

Lemma closes_at_first o c (Hoc : Ascii.eqb c o = false) s :
  match count_brackets o c 0 0 s with
  | 0 => forall k, ~ closes_at o c s k
  | S e => first_close o c s (S e)
  end.
Proof.
  pose proof (count_brackets_first o c Hoc s 0%Z 0) as H.
  destruct (count_brackets o c 0 0 s) as [|e].
  - intros [|k] (Hk & Hn & Hd); [lia|]. cbn [Nat.sub] in Hn.
    rewrite Nat.sub_0_r in Hn. apply (H k Hn). rewrite Hd. reflexivity.
  - destruct H as (k & He & Hn & Hd & Hmin). assert (e = k) by lia. subst k.
    split.
    + repeat split; [lia| |lia]. cbn [Nat.sub]. now rewrite Nat.sub_0_r.
    + intros [|j] Hj (Hk & Hnj & Hdj); [lia|]. cbn [Nat.sub] in Hnj.
      rewrite Nat.sub_0_r in Hnj. apply (Hmin j); [lia|exact Hnj|lia].
Qed.

Lemma first_close_unique o c s k k' :
  first_close o c s k -> first_close o c s k' -> k = k'.
Proof.
  intros [Hk Hmin] [Hk' Hmin'].
  destruct (Nat.lt_trichotomy k k') as [H|[H|H]]; [|exact H|].
  - now destruct (Hmin' k H).
  - now destruct (Hmin k' H).
Qed.

Lemma bracket_candidate_selects o c text cand :
  is_space o = false -> is_space c = false -> Ascii.eqb c o = false ->
  bracket_candidate o c text = Some cand <-> selects o c text cand.
Proof.
  intros Ho Hc Hoc. unfold bracket_candidate, selects. split.
  - destruct (search_span o c text) as [span|] eqn:E; [|discriminate].
    apply search_span_split in E as (pre & mid & post & -> & Hpre & Hpost & ->).
    rewrite strip_bracketed by assumption. intros [= <-].
    exists pre, mid, post. repeat split; try assumption.
    pose proof (closes_at_first o c Hoc (_clean_json (o :: mid ++ [c]))) as H.
    destruct (count_brackets o c 0 0 (_clean_json (o :: mid ++ [c]))) as [|e].
    + right. now split.
    + left. exists (S e). now split.
  - intros (pre & mid & post & -> & Hpre & Hpost & Hsel).
    assert (E : search_span o c (pre ++ o :: mid ++ c :: post)
                = Some (o :: mid ++ [c])).
    { apply search_span_split. now exists pre, mid, post. }
    rewrite E, strip_bracketed by assumption. f_equal.
    pose proof (closes_at_first o c Hoc (_clean_json (o :: mid ++ [c]))) as H.
    destruct (count_brackets o c 0 0 (_clean_json (o :: mid ++ [c]))) as [|e].
    + destruct Hsel as [(k & [Hk _] & ->)|[_ ->]]; [|reflexivity].
      now destruct (H k).
    + destruct Hsel as [(k & Hk & ->)|[Hnone ->]].
      * now rewrite <- (first_close_unique _ _ _ _ _ H Hk).
      * destruct H as [H _]. now destruct (Hnone (S e)).
Qed.

End ExtractFacts.

Section ExtractTheorems.

Variable json_loads : str -> Exc json.

Import LLM.

(** C5. [extract_json] never raises, whatever the text and whatever the
    parser does; it returns null when the text is empty or starts with
    [Error:], without regard to the parser, and it returns null when the
    parser raises on every string that the steps hand to it. *)
Theorem extract_json_never_raises (text : str) :
  (exists v, extract_json json_loads text = Ret v)
  /\ (text = [] \/ startswith (py "Error:") text = true ->
      extract_json json_loads text = Ret JNull)
  /\ ((forall s, In (Some s) (candidates (strip text)) ->
                 exists e, json_loads s = Raise e) ->
      extract_json json_loads text = Ret JNull).
Proof.
  unfold extract_json, candidates.
  assert (Htot : forall cand next, (exists v, next = Ret v) ->
                   exists v, attempt json_loads cand next = Ret v).
  { intros [s|] next [v Hv]; cbn [attempt]; [|now exists v].
    destruct (json_loads s) as [w|e]; cbn [catch]; [now exists w|now exists v]. }
  assert (Hfail : forall cand next,
            (forall s, cand = Some s -> exists e, json_loads s = Raise e) ->
            attempt json_loads cand next = next).
  { intros [s|] next H; cbn [attempt]; [|reflexivity].
    destruct (H s eq_refl) as [e ->]. reflexivity. }
  repeat split.
  - destruct (_ || _); [now exists JNull|].
    do 4 apply Htot. now exists JNull.
  - intros [->|H]; [reflexivity|]. rewrite H. now rewrite orb_true_r.
  - intros H. destruct (_ || _); [reflexivity|].
    repeat (rewrite Hfail;
      [|intros s Hs; apply H; rewrite <- Hs; cbn [In]; tauto]).
    reflexivity.
Qed.

(** C6, amended. The array step takes the text from the first [[] to
    the last []], cleans it, then counts the brackets of the cleaned text
    and cuts it after the []] that first brings the depth back to zero
    (the whole cleaned text when none does); the object step does the
    same with the braces.  When the direct parse and the code-block step
    fail, what [extract_json] returns is the parse of these two
    selections, in this order, or null. *)
Theorem bracket_steps_clean_then_count (text : str) :
  (forall cand, bracket_candidate "[" "]" text = Some cand
                <-> selects "[" "]" text cand)
  /\ (forall cand, bracket_candidate "{" "}" text = Some cand
                   <-> selects "{" "}" text cand)
  /\ (text <> [] -> startswith (py "Error:") text = false ->
      (exists e, json_loads (strip text) = Raise e) ->
      (forall s, fence_candidate (strip text) = Some s ->
                 exists e, json_loads s = Raise e) ->
      extract_json json_loads text
      = attempt json_loads (bracket_candidate "[" "]" (strip text))
          (attempt json_loads (bracket_candidate "{" "}" (strip text))
             (Ret JNull))).
Proof.
  repeat split.
  - now apply bracket_candidate_selects.
  - now apply bracket_candidate_selects.
  - now apply bracket_candidate_selects.
  - now apply bracket_candidate_selects.
  - intros Hne Herr [e He] Hfence. unfold extract_json. rewrite Herr.
    destruct text as [|c text]; [congruence|]. cbn [orb].
    cbn [attempt]. rewrite He. cbn [catch].
    destruct (fence_candidate (strip (c :: text))) as [s|] eqn:E; [|reflexivity].
    cbn [attempt]. destruct (Hfence s eq_refl) as [e' ->]. reflexivity.
Qed.

End ExtractTheorems.

(** The text of [commented_array] goes through the array step. *)
Lemma bracket_steps_clean_then_count_witness :
  LLM.commented_array <> []
  /\ LLM.extract_json Stub.json_loads LLM.commented_array
     = LLM.attempt Stub.json_loads (Some (py "[1,  2]")) (Ret JNull).
Proof.
  split; [discriminate|].
  destruct (bracket_steps_clean_then_count Stub.json_loads LLM.commented_array)
    as (_ & _ & H).
  rewrite H.
  - reflexivity.
  - discriminate.
  - reflexivity.
  - now exists JSONDecodeError.
  - intros s Hs. discriminate Hs.
Defined.

(** C6 as stated fails: on [commented_array] the direct parse and the
    code-block step fail, counting the brackets of the text as it is ends
    the selection inside the comment, while the code parses the cleaned
    array and returns it. *)
Lemma array_step_cleans_before_counting :
  Stub.json_loads (strip LLM.commented_array) = Raise JSONDecodeError
  /\ LLM.fence_candidate (strip LLM.commented_array) = None
  /\ LLM.bracket_candidate "[" "]" (strip LLM.commented_array)
     = Some (py "[1,  2]")
  /\ LLM.claimed_candidate "[" "]" (strip LLM.commented_array)
     = Some (py "[1, /* ]")
  /\ LLM.bracket_candidate "[" "]" (strip LLM.commented_array)
     <> LLM.claimed_candidate "[" "]" (strip LLM.commented_array)
  /\ LLM.extract_json Stub.json_loads LLM.commented_array
     = Ret (JArr [JInt 1; JInt 2]).
Proof. repeat split; try reflexivity. discriminate. Qed.

(** ** The validator *)

Lemma dict_find_set k k' v d :
  dict_find k (dict_set k' v d)
  = if str_eqb k k' then Some v else dict_find k d.
Proof.
  induction d as [|[k0 v0] d IH]; cbn [dict_set dict_find].
  - reflexivity.
  - destruct (str_eqb k' k0) eqn:E; cbn [dict_find].
    + apply str_eqb_eq in E. subst k0. now destruct (str_eqb k k').
    + rewrite IH. destruct (str_eqb k k0) eqn:E0; [|reflexivity].
      apply str_eqb_eq in E0. subst k0.
      destruct (str_eqb k k') eqn:E1; [|reflexivity].
      apply str_eqb_eq in E1. subst k'. now rewrite str_eqb_refl in E.
Qed.

Section ValidatorFacts.

Import Arxiv ValidatorAgent.

Variable py_str : json -> str.
Variable json_loads : str -> Exc json.
Variable search_arxiv : nat -> str -> Z -> Exc (list Paper).
Variable llm_call : nat -> Prompt -> str.
Variable original_topic field_context : str.

Local Abbreviation validate_one :=
  (validate_one py_str json_loads search_arxiv llm_call original_topic
     field_context).
Local Abbreviation validate_loop :=
  (validate_loop py_str json_loads search_arxiv llm_call original_topic
     field_context).
Local Abbreviation validate_indexed :=
  (fun insights => validate_indexed py_str json_loads search_arxiv llm_call
                     insights original_topic field_context).
Local Abbreviation validate :=
  (fun insights => validate py_str json_loads search_arxiv llm_call
                     insights original_topic field_context).
Local Abbreviation query_of insight :=
  (_extract_search_keywords py_str (dict_get (py "gap") (JStr []) insight)
     (dict_get (py "title") (JStr []) insight) original_topic).

Lemma mark_find validated score evidence insight k :
  dict_find k (mark validated score evidence insight)
  = if str_eqb k (py "validation_evidence") then Some (JStr evidence)
    else if str_eqb k (py "survival_score") then Some (JFloat score)
    else if str_eqb k (py "validated") then Some (JBool validated)
    else dict_find k insight.
Proof. unfold mark. now rewrite !dict_find_set. Qed.

Lemma mark_other validated score evidence insight k :
  ~ In k mark_keys ->
  dict_find k (mark validated score evidence insight) = dict_find k insight.
Proof.
  intros H. rewrite mark_find.
  destruct (str_eqb k (py "validation_evidence")) eqn:E1;
    [apply str_eqb_eq in E1; subst k; exfalso; apply H; cbn; tauto|].
  destruct (str_eqb k (py "survival_score")) eqn:E2;
    [apply str_eqb_eq in E2; subst k; exfalso; apply H; cbn; tauto|].
  destruct (str_eqb k (py "validated")) eqn:E3;
    [apply str_eqb_eq in E3; subst k; exfalso; apply H; cbn; tauto|].
  reflexivity.
Qed.

Lemma validate_one_no_papers i insight :
  search_arxiv i (query_of insight) 3%Z = Ret []
  \/ (exists e, search_arxiv i (query_of insight) 3%Z = Raise e) ->
  validate_one i insight
  = Ret (Some (mark true 8.5%Q no_prior_work insight),
         [EvSearch i (query_of insight)]).
Proof.
  intros H. unfold ValidatorAgent.validate_one.
  destruct H as [-> | [e ->]]; reflexivity.
Qed.

Lemma validate_one_events i insight r events :
  validate_one i insight = Ret (r, events) ->
  events = [EvSearch i (query_of insight)]
  \/ exists p, events = [EvSearch i (query_of insight); EvLLM i p].
Proof.
  unfold ValidatorAgent.validate_one.
  destruct (match search_arxiv i (query_of insight) 3%Z with
            | Ret papers => papers | Raise _ => [] end) as [|p ps].
  - intros [= _ <-]. now left.
  - destruct (_format_experiment_design _ _) as [design|]; [|discriminate].
    cbn [bind].
    destruct (LLM.extract_json _ _) as [extracted|]; [|discriminate].
    cbn [bind]. intros H. right. eexists.
    destruct (as_mapping extracted) as [| | | | | |[|? ?]];
      try (injection H as _ <-; reflexivity).
    destruct (judge _ _ _ _) as [x|]; [|discriminate]. cbn [bind] in H.
    injection H as _ <-. reflexivity.
Qed.

Lemma validate_one_index i insight r events :
  validate_one i insight = Ret (r, events) ->
  Forall (fun e => event_index e = i) events.
Proof.
  intros H. destruct (validate_one_events _ _ _ _ H) as [->|[p ->]];
    repeat constructor.
Qed.

Lemma validate_loop_index start insights out events :
  validate_loop start insights = Ret (out, events) ->
  Forall (fun e => start <= event_index e) events
  /\ Forall (fun id => start <= fst id) out.
Proof.
  revert start out events.
  induction insights as [|x insights IH]; intros start out events.
  - intros [= <- <-]. split; constructor.
  - cbn [ValidatorAgent.validate_loop].
    assert (Hskip : validate_loop (S start) insights = Ret (out, events) ->
              Forall (fun e => start <= event_index e) events
              /\ Forall (fun id => start <= fst id) out).
    { intros H. destruct (IH _ _ _ H) as [He Ho]. split.
      - eapply Forall_impl; [|exact He]. cbn. intros; lia.
      - eapply Forall_impl; [|exact Ho]. cbn. intros; lia. }
    destruct x as [| | | | | |insight]; try exact Hskip.
    destruct (validate_one start insight) as [[kept ev]|] eqn:E1; [|discriminate].
    cbn [bind].
    destruct (validate_loop (S start) insights) as [[others evs]|] eqn:E2;
      [|discriminate].
    cbn [bind]. intros [= <- <-].
    destruct (IH _ _ _ E2) as [He Ho]. split.
    + apply Forall_app. split.
      * eapply Forall_impl; [|exact (validate_one_index _ _ _ _ E1)].
        cbn. intros; lia.
      * eapply Forall_impl; [|exact He]. cbn. intros; lia.
    + assert (Ho' : Forall (fun id : nat * dict => start <= fst id) others).
      { eapply Forall_impl; [|exact Ho]. cbn. intros; lia. }
      destruct kept; [constructor; [cbn; lia|exact Ho']|exact Ho'].
Qed.

Lemma no_llm_event_other i events j :
  Forall (fun e => event_index e = j) events -> j <> i ->
  existsb (is_llm_event i) events = false.
Proof.
  induction 1 as [|e events He _ IH]; intros Hj; [reflexivity|].
  cbn [existsb]. rewrite (IH Hj), orb_false_r.
  destruct e as [k q|k p]; cbn in *; [reflexivity|].
  apply Nat.eqb_neq. congruence.
Qed.

Lemma no_llm_event_later i events start :
  Forall (fun e => start <= event_index e) events -> i < start ->
  existsb (is_llm_event i) events = false.
Proof.
  induction 1 as [|e events He _ IH]; intros Hj; [reflexivity|].
  cbn [existsb]. rewrite (IH Hj), orb_false_r.
  destruct e as [k q|k p]; cbn in *; [reflexivity|].
  apply Nat.eqb_neq. lia.
Qed.

(** What the loop does with the insight at a given place of the list. *)
Lemma validate_loop_at start before insight after out events :
  validate_loop start (before ++ JObj insight :: after) = Ret (out, events) ->
  exists kept ev,
    validate_one (start + List.length before) insight = Ret (kept, ev)
    /\ (forall d, In (start + List.length before, d) out <-> kept = Some d)
    /\ (existsb (is_llm_event (start + List.length before)) ev = false ->
        existsb (is_llm_event (start + List.length before)) events = false).
Proof.
  revert start out events.
  induction before as [|x before IH]; intros start out events.
  - cbn [app ValidatorAgent.validate_loop List.length]. rewrite Nat.add_0_r.
    destruct (validate_one start insight) as [[kept ev]|] eqn:E1; [|discriminate].
    cbn [bind].
    destruct (validate_loop (S start) after) as [[others evs]|] eqn:E2;
      [|discriminate].
    cbn [bind]. intros [= <- <-]. exists kept, ev.
    destruct (validate_loop_index _ _ _ _ E2) as [He Ho].
    assert (Hnot : forall d, ~ In (start, d) others).
    { intros d Hin. rewrite Forall_forall in Ho. specialize (Ho _ Hin).
      cbn in Ho. lia. }
    repeat split.
    + destruct kept as [k|]; cbn [In].
      * intros [[= ->]|Hin]; [reflexivity|now destruct (Hnot d)].
      * intros Hin. now destruct (Hnot d).
    + intros ->. now left.
    + intros Hev. rewrite existsb_app, Hev. cbn [orb].
      apply (no_llm_event_later _ _ (S start)); [exact He|lia].
  - cbn [app ValidatorAgent.validate_loop List.length].
    replace (start + S (List.length before))
      with (S start + List.length before) by lia.
    destruct x as [| | | | | |other]; try apply IH.
    destruct (validate_one start other) as [[kept0 ev0]|] eqn:E1; [|discriminate].
    cbn [bind].
    destruct (validate_loop (S start) (before ++ JObj insight :: after))
      as [[others evs]|] eqn:E2; [|discriminate].
    cbn [bind]. intros [= <- <-].
    destruct (IH _ _ _ E2) as (kept & ev & Hone & Hin & Hev).
    exists kept, ev. repeat split; try exact Hone.
    + intros H. apply Hin. destruct kept0; [|exact H].
      destruct H as [[= H _]|H]; [lia|exact H].
    + intros H. apply Hin in H. destruct kept0; [now right|exact H].
    + intros H. rewrite existsb_app, (Hev H), orb_false_r.
      apply (no_llm_event_other _ _ start); [|lia].
      exact (validate_one_index _ _ _ _ E1).
Qed.

(** [validate] returns what the loop kept, unless the loop kept nothing. *)
Lemma validate_indexed_kept insights out events kept evs :
  validate_loop 1 insights = Ret (kept, evs) -> kept <> [] ->
  validate_indexed insights = Ret (out, events) ->
  out = kept /\ events = evs.
Proof.
  intros Hl Hk. unfold ValidatorAgent.validate_indexed. rewrite Hl. cbn [bind].
  destruct kept; [congruence|]. now intros [= <- <-].
Qed.

(** C1. For an insight whose search returns no paper, or raises, the
    loop keeps the insight with [validated] true, [survival_score] 8.5
    and the fixed evidence, every other field as it was, after the search
    alone; and whenever [validate] returns for a list that holds the
    insight at place [i], the insight so marked is in the returned list
    and no call of the language model was made for it. *)
Theorem default_survive (i : nat) (insight : dict) :
  search_arxiv i (query_of insight) 3%Z = Ret []
  \/ (exists e, search_arxiv i (query_of insight) 3%Z = Raise e) ->
  let kept := mark true 8.5%Q no_prior_work insight in
  validate_one i insight = Ret (Some kept, [EvSearch i (query_of insight)])
  /\ dict_find (py "validated") kept = Some (JBool true)
  /\ dict_find (py "survival_score") kept = Some (JFloat 8.5%Q)
  /\ dict_find (py "validation_evidence") kept = Some (JStr no_prior_work)
  /\ (forall k, ~ In k mark_keys -> dict_find k kept = dict_find k insight)
  /\ (forall before after out events,
        i = 1 + List.length before ->
        validate_indexed (before ++ JObj insight :: after) = Ret (out, events) ->
        In (i, kept) out
        /\ existsb (is_llm_event i) events = false
        /\ validate (before ++ JObj insight :: after) = Ret (map snd out)).
Proof.
  intros Hsearch kept.
  pose proof (validate_one_no_papers i insight Hsearch) as Hone.
  split; [exact Hone|].
  split; [unfold kept; now rewrite mark_find|].
  split; [unfold kept; now rewrite mark_find|].
  split; [unfold kept; now rewrite mark_find|].
  split; [intros k Hk; now apply mark_other|].
  intros before after out events Hi Hv. subst i.
  assert (Hval : validate (before ++ JObj insight :: after) = Ret (map snd out)).
  { unfold ValidatorAgent.validate. now rewrite Hv. }
  unfold ValidatorAgent.validate_indexed in Hv.
  destruct (validate_loop 1 (before ++ JObj insight :: after))
    as [[loop_out loop_ev]|] eqn:El; [|discriminate].
  destruct (validate_loop_at _ _ _ _ _ _ El) as (k & ev & Hk & Hin & Hev).
  rewrite Hone in Hk. injection Hk as <- <-.
  assert (Hkept : In (1 + List.length before, kept) loop_out) by now apply Hin.
  cbn [bind] in Hv. destruct loop_out as [|o loop_out]; [contradiction|].
  injection Hv as <- <-. split; [exact Hkept|]. split; [now apply Hev|exact Hval].
Qed.

Lemma novelty_key_scored d :
  scored d = true ->
  exists k, novelty_key (JObj d) = Ret k /\ as_number k = Some (novelty d).
Proof.
  unfold scored, novelty, novelty_key. intros H. eexists. split; [reflexivity|].
  now destruct (as_number _).
Qed.

Lemma max_from_scored rest :
  forall bi best bk qb i,
  Forall (fun d => scored d = true) rest ->
  as_number bk = Some qb ->
  exists j x,
    max_from novelty_key (bi, best) bk i (map JObj rest) = Ret (j, x)
    /\ ((j = bi /\ x = best /\ forall d, In d rest -> (novelty d <= qb)%Q)
        \/ (exists idx d,
              nth_error rest idx = Some d /\ j = i + idx /\ x = JObj d
              /\ (qb < novelty d)%Q
              /\ (forall d', In d' rest -> (novelty d' <= novelty d)%Q)
              /\ (forall idx' d', idx' < idx -> nth_error rest idx' = Some d' ->
                                  (novelty d' < novelty d)%Q))).
Proof.
  induction rest as [|d rest IH]; intros bi best bk qb i Hs Hb.
  - exists bi, best. split; [reflexivity|]. left. repeat split. intros d [].
  - inversion Hs as [|? ? Hd Hrest]; subst.
    destruct (novelty_key_scored d Hd) as (k & Hk & Hq).
    cbn [map max_from]. rewrite Hk. cbn [bind]. unfold py_gt. rewrite Hq, Hb.
    cbn [bind]. destruct (Qle_bool (novelty d) qb) eqn:E; cbn [negb].
    + apply Qle_bool_iff in E.
      destruct (IH bi best bk qb (S i) Hrest Hb) as (j & x & Hm & Hcase).
      exists j, x. split; [exact Hm|].
      destruct Hcase as [(-> & -> & Hall)|(idx & d2 & Hn & -> & -> & Hlt & Hall & Hfirst)].
      * left. repeat split. intros d' [<-|Hin]; [exact E|now apply Hall].
      * right. exists (S idx), d2. repeat split; try assumption; [lia| |].
        -- intros d' [<-|Hin]; [|now apply Hall].
           apply Qlt_le_weak. eapply Qle_lt_trans; eassumption.
        -- intros [|idx'] d' Hlt' Hn'.
           ++ injection Hn' as <-. eapply Qle_lt_trans; eassumption.
           ++ apply (Hfirst idx'); [lia|exact Hn'].
    + assert (Hgt : (qb < novelty d)%Q).
      { apply Qnot_le_lt. intros H. apply Qle_bool_iff in H. congruence. }
      destruct (IH i (JObj d) k (novelty d) (S i) Hrest Hq) as (j & x & Hm & Hcase).
      exists j, x. split; [exact Hm|]. right.
      destruct Hcase as [(-> & -> & Hall)|(idx & d2 & Hn & -> & -> & Hlt & Hall & Hfirst)].
      * exists 0, d. repeat split; try assumption; [lia| |].
        -- intros d' [<-|Hin]; [apply Qle_refl|now apply Hall].
        -- intros idx' d' Hlt'. lia.
      * exists (S idx), d2. repeat split; try assumption; [lia| | |].
        -- eapply Qlt_trans; eassumption.
        -- intros d' [<-|Hin]; [now apply Qlt_le_weak|now apply Hall].
        -- intros [|idx'] d' Hlt' Hn'.
           ++ now injection Hn' as <-.
           ++ apply (Hfirst idx'); [lia|exact Hn'].
Qed.

(** [max] over scored insights: the first insight of highest novelty. *)
Lemma max_indexed_scored ds :
  ds <> [] -> Forall (fun d => scored d = true) ds ->
  exists i best,
    max_indexed novelty_key (map JObj ds) = Ret (S i, JObj best)
    /\ nth_error ds i = Some best
    /\ (forall d, In d ds -> (novelty d <= novelty best)%Q)
    /\ (forall j d, j < i -> nth_error ds j = Some d ->
                    (novelty d < novelty best)%Q).
Proof.
  destruct ds as [|d0 rest]; [congruence|]. intros _ Hs.
  inversion Hs as [|? ? Hd Hrest]; subst.
  destruct (novelty_key_scored d0 Hd) as (k & Hk & Hq).
  cbn [map max_indexed]. rewrite Hk. cbn [bind].
  destruct (max_from_scored rest 1 (JObj d0) k (novelty d0) 2 Hrest Hq)
    as (j & x & Hm & Hcase).
  rewrite Hm.
  destruct Hcase as [(-> & -> & Hall)|(idx & d2 & Hn & -> & -> & Hlt & Hall & Hfirst)].
  - exists 0, d0. repeat split.
    + intros d [<-|Hin]; [apply Qle_refl|now apply Hall].
    + intros j d Hj. lia.
  - exists (S idx), d2. repeat split; try assumption.
    + intros d [<-|Hin]; [now apply Qlt_le_weak|now apply Hall].
    + intros [|j] d Hj Hnj.
      * now injection Hnj as <-.
      * apply (Hfirst j); [lia|exact Hnj].
Qed.

Lemma validate_loop_all_rejected ds :
  forall start,
  (forall i d, nth_error ds i = Some d ->
               exists ev, validate_one (start + i) d = Ret (None, ev)) ->
  exists events, validate_loop start (map JObj ds) = Ret ([], events).
Proof.
  induction ds as [|d ds IH]; intros start H.
  - now exists [].
  - cbn [map ValidatorAgent.validate_loop].
    destruct (H 0 d eq_refl) as [ev Hev]. rewrite Nat.add_0_r in Hev.
    rewrite Hev. cbn [bind].
    destruct (IH (S start)) as [evs Hevs].
    { intros i d' Hi. destruct (H (S i) d' Hi) as [ev' Hev'].
      exists ev'. now replace (S start + i) with (start + S i) by lia. }
    rewrite Hevs. cbn [bind]. now eexists.
Qed.

Lemma validate_loop_dicts ds :
  forall start out events,
  validate_loop start (map JObj ds) = Ret (out, events) ->
  out = [] ->
  forall i d, nth_error ds i = Some d ->
              exists ev, validate_one (start + i) d = Ret (None, ev).
Proof.
  induction ds as [|d0 ds IH]; intros start out events H Hout i d Hi.
  - now destruct i.
  - cbn [map ValidatorAgent.validate_loop] in H.
    destruct (validate_one start d0) as [[kept ev]|] eqn:E1; [|discriminate].
    cbn [bind] in H.
    destruct (validate_loop (S start) (map JObj ds)) as [[others evs]|] eqn:E2;
      [|discriminate].
    cbn [bind] in H. injection H as H _. subst out.
    destruct kept; [discriminate|]. destruct i as [|i].
    + injection Hi as <-. rewrite Nat.add_0_r. now exists ev.
    + cbn [nth_error] in Hi. replace (start + S i) with (S start + i) by lia.
      now apply (IH _ _ _ E2).
Qed.

(** C2. For a non-empty list of insight mappings, [validate] never
    returns an empty list; and when the loop rejects every insight (the
    novelty scores being numbers), it returns exactly one insight, the
    first of highest [novelty_score], with [validated] false and
    [survival_score] 5.0. *)
Theorem terminal_fallback (ds : list dict) :
  ds <> [] ->
  (forall out, validate (map JObj ds) = Ret out -> out <> [])
  /\ ((forall i d, nth_error ds i = Some d ->
                   exists ev, validate_one (S i) d = Ret (None, ev)) ->
      Forall (fun d => scored d = true) ds ->
      exists i best events,
        nth_error ds i = Some best
        /\ (forall d, In d ds -> (novelty d <= novelty best)%Q)
        /\ (forall j d, j < i -> nth_error ds j = Some d ->
                        (novelty d < novelty best)%Q)
        /\ validate_indexed (map JObj ds)
           = Ret ([(S i, mark false 5%Q all_challenged best)], events)
        /\ validate (map JObj ds)
           = Ret [mark false 5%Q all_challenged best]
        /\ dict_find (py "validated") (mark false 5%Q all_challenged best)
           = Some (JBool false)
        /\ dict_find (py "survival_score") (mark false 5%Q all_challenged best)
           = Some (JFloat 5%Q)).
Proof.
  intros Hne. split.
  - intros out. unfold ValidatorAgent.validate, ValidatorAgent.validate_indexed.
    destruct (validate_loop 1 (map JObj ds)) as [[kept evs]|]; [|discriminate].
    cbn [bind]. destruct kept as [|k kept].
    + destruct ds as [|d ds]; [congruence|]. cbn [map].
      destruct (max_indexed _ _) as [[i best]|]; [|discriminate]. cbn [bind].
      destruct best; try discriminate. cbn [bind]. now intros [= <-].
    + cbn [bind]. now intros [= <-].
  - intros Hrej Hscored.
    destruct (max_indexed_scored ds Hne Hscored)
      as (i & best & Hmax & Hnth & Hall & Hfirst).
    destruct (validate_loop_all_rejected ds 1 Hrej) as [events Hloop].
    assert (Hix : validate_indexed (map JObj ds)
                  = Ret ([(S i, mark false 5%Q all_challenged best)], events)).
    { unfold ValidatorAgent.validate_indexed. rewrite Hloop. cbn [bind].
      destruct ds as [|d ds]; [congruence|]. cbn [map] in *. rewrite Hmax.
      reflexivity. }
    exists i, best, events. repeat split; try assumption.
    + unfold ValidatorAgent.validate. now rewrite Hix.
    + now rewrite mark_find.
    + now rewrite mark_find.
Qed.

Ltac skip_set Hk :=
  rewrite dict_find_set;
  match goal with
  | |- (if str_eqb ?k ?k' then _ else _) = _ =>
      replace (str_eqb k k') with false
        by (destruct Hk as [-> | ->]; reflexivity)
  end.

Lemma copy_optional_keeps v d d' k :
  verdict_key k -> copy_optional v d = Ret d' ->
  dict_find k d' = dict_find k d.
Proof.
  intros Hk. unfold copy_optional.
  destruct (truthy (dict_get (py "related_work") JNull v));
    destruct (truthy (dict_get (py "validation_comment") JNull v));
    (destruct (truthy (dict_get (py "experiment_design_evaluation") _ v));
     [ destruct (dict_get (py "experiment_design_evaluation") _ v);
       try discriminate; cbn [get_of bind] | ]);
    intros [= <-]; repeat skip_set Hk; reflexivity.
Qed.

Lemma refine_keeps v observation gap_text d d' k :
  verdict_key k -> refine v observation gap_text d = Ret d' ->
  dict_find k d' = dict_find k d.
Proof.
  intros Hk. unfold refine.
  destruct (truthy (dict_get (py "refinement") _ v)); [|now intros [= <-]].
  destruct (strip_of _) as [[|c r]|]; cbn [bind]; try discriminate;
    [now intros [= <-]|].
  destruct (truthy observation); cbn [negb].
  - destruct (strip_of observation) as [o|]; [|discriminate]. cbn [bind].
    destruct (strip_of gap_text) as [g|]; [|discriminate]. cbn [bind].
    intros [= <-].
    destruct (negb (str_eqb (c :: r) g)), (negb (str_eqb (c :: r) o));
      repeat skip_set Hk; reflexivity.
  - cbn [bind]. intros [= <-]. now skip_set Hk.
Qed.

Lemma judge_verdict v observation gap_text insight g s q :
  dict_find (py "gap_still_valid") v = Some g ->
  dict_find (py "survival_score") v = Some s ->
  as_number s = Some q ->
  (truthy g && Qle_bool 6 q = false ->
   judge v observation gap_text insight = Ret None)
  /\ (truthy g && Qle_bool 6 q = true ->
      (forall r, judge v observation gap_text insight = Ret r ->
                 exists kept, r = Some kept
                   /\ dict_find (py "validated") kept = Some (JBool true)
                   /\ dict_find (py "survival_score") kept = Some s)
      /\ judge v observation gap_text insight <> Ret None).
Proof.
  intros Hg Hs Hq. unfold judge, dict_get. rewrite Hg, Hs. unfold py_ge.
  rewrite Hq. cbn [bind]. split; intros Hv; rewrite Hv; [reflexivity|].
  set (base := dict_set (py "validation_dialogue") _ _).
  assert (Hb1 : dict_find (py "validated") base = Some (JBool true)).
  { unfold base. now rewrite !dict_find_set. }
  assert (Hb2 : dict_find (py "survival_score") base = Some s).
  { unfold base. now rewrite !dict_find_set. }
  assert (Hres : forall r,
            bind (copy_optional v base) (fun insight0 =>
              bind (refine v observation gap_text insight0) (fun insight1 =>
                Ret (Some insight1))) = Ret r ->
            exists kept, r = Some kept
              /\ dict_find (py "validated") kept = Some (JBool true)
              /\ dict_find (py "survival_score") kept = Some s).
  { intros r. destruct (copy_optional v base) as [d1|] eqn:E1; [|discriminate].
    cbn [bind].
    destruct (refine v observation gap_text d1) as [d2|] eqn:E2; [|discriminate].
    cbn [bind]. intros [= <-]. exists d2. split; [reflexivity|].
    rewrite (refine_keeps _ _ _ _ _ _ (or_introl eq_refl) E2),
      (refine_keeps _ _ _ _ _ _ (or_intror eq_refl) E2),
      (copy_optional_keeps _ _ _ _ (or_introl eq_refl) E1),
      (copy_optional_keeps _ _ _ _ (or_intror eq_refl) E1).
    now split. }
  split; [exact Hres|].
  intros H. destruct (Hres _ H) as (kept & Hk & _). discriminate.
Qed.

Lemma copy_optional_typed v d :
  match dict_get (py "experiment_design_evaluation") (JObj []) v with
  | JObj _ => true
  | x => negb (truthy x)
  end = true ->
  exists d', copy_optional v d = Ret d'.
Proof.
  unfold copy_optional.
  destruct (dict_get (py "experiment_design_evaluation") (JObj []) v) eqn:E;
    intros H; try (apply negb_true_iff in H; rewrite H; now eexists).
  destruct (truthy (JObj m)); cbn [get_of bind]; now eexists.
Qed.

Lemma refine_typed v insight d :
  str_or_false (dict_get (py "refinement") (JStr []) v) = true ->
  (let observation := dict_get (py "observation") (JStr []) insight in
   negb (truthy observation)
   || match observation, dict_get (py "gap") (JStr []) insight with
      | JStr _, JStr _ => true
      | _, _ => false
      end) = true ->
  exists d', refine v (dict_get (py "observation") (JStr []) insight)
               (dict_get (py "gap") (JStr []) insight) d = Ret d'.
Proof.
  unfold refine. cbv zeta.
  destruct (dict_get (py "refinement") (JStr []) v) eqn:Er; cbn [str_or_false];
    intros Hr Ho; try (apply negb_true_iff in Hr; rewrite Hr; now eexists).
  destruct (truthy (JStr s)); [|now eexists]. cbn [strip_of bind].
  destruct (strip s); [now eexists|].
  destruct (truthy (dict_get (py "observation") (JStr []) insight)) eqn:Et;
    cbn [negb orb] in *; [|cbn [bind]; now eexists].
  destruct (dict_get (py "observation") (JStr []) insight); try discriminate.
  destruct (dict_get (py "gap") (JStr []) insight); try discriminate.
  cbn [strip_of bind]. now eexists.
Qed.

Lemma judge_typed v insight s q :
  dict_find (py "survival_score") v = Some s -> as_number s = Some q ->
  well_typed v insight = true ->
  exists r, judge v (dict_get (py "observation") (JStr []) insight)
              (dict_get (py "gap") (JStr []) insight) insight = Ret r.
Proof.
  intros Hs Hq Hw. unfold well_typed in Hw.
  apply andb_true_iff in Hw as [Hw Ho]. apply andb_true_iff in Hw as [He Hr].
  unfold judge. unfold dict_get at 1. rewrite Hs. unfold py_ge. rewrite Hq.
  cbn [bind]. destruct (_ && _); [|now eexists].
  match goal with
  | |- context [copy_optional v ?d] =>
      destruct (copy_optional_typed v d He) as [d1 ->]
  end.
  cbn [bind]. destruct (refine_typed v insight d1 Hr Ho) as [d2 ->].
  cbn [bind]. now eexists.
Qed.

(** [max] returns an item of the list, with its position. *)
Lemma max_from_item key items :
  forall bi best bk i j x,
  max_from key (bi, best) bk i items = Ret (j, x) ->
  (j = bi /\ x = best)
  \/ (exists idx, nth_error items idx = Some x /\ j = i + idx).
Proof.
  induction items as [|y items IH]; intros bi best bk i j x.
  - intros [= <- <-]. now left.
  - cbn [max_from]. destruct (key y) as [k|]; [|discriminate]. cbn [bind].
    destruct (py_gt k bk) as [gt|]; [|discriminate]. cbn [bind].
    destruct gt; intros H; apply IH in H.
    + right. destruct H as [[-> ->]|(idx & Hn & ->)].
      * exists 0. split; [reflexivity|lia].
      * exists (S idx). split; [exact Hn|lia].
    + destruct H as [H|(idx & Hn & ->)]; [now left|right].
      exists (S idx). split; [exact Hn|lia].
Qed.

Lemma max_indexed_item key items j x :
  max_indexed key items = Ret (j, x) ->
  exists idx, nth_error items idx = Some x /\ j = S idx.
Proof.
  destruct items as [|y items]; [discriminate|]. cbn [max_indexed].
  destruct (key y) as [k|]; [|discriminate]. cbn [bind]. intros H.
  apply max_from_item in H as [[-> ->]|(idx & Hn & ->)].
  - now exists 0.
  - exists (S idx). split; [exact Hn|lia].
Qed.

Lemma nth_error_middle {A} (before after : list A) x :
  nth_error (before ++ x :: after) (List.length before) = Some x.
Proof. induction before; [reflexivity|assumption]. Qed.


End ValidatorFacts.

(** With a paper source that finds nothing, an insight is kept with the
    default marks. *)
Lemma default_survive_witness :
  exists events,
    ValidatorAgent.validate_one Stub.py_str Stub.json_loads Stub.search_none
      Stub.llm_approves Stub.topic [] 2 Stub.insight_b
    = Ret (Some (ValidatorAgent.mark true 8.5%Q ValidatorAgent.no_prior_work
                   Stub.insight_b), events).
Proof.
  eexists.
  exact (proj1 (default_survive Stub.py_str Stub.json_loads Stub.search_none
                  Stub.llm_approves Stub.topic [] 2 Stub.insight_b
                  (or_introl eq_refl))).
Defined.

(** With a language model that rejects everything, [validate] returns
    the insight of novelty 9.5 alone. *)
Lemma terminal_fallback_witness :
  exists i best events,
    nth_error [Stub.insight_a; Stub.insight_b] i = Some best
    /\ ValidatorAgent.validate_indexed Stub.py_str Stub.json_loads
         Stub.search_one Stub.llm_rejects
         (map JObj [Stub.insight_a; Stub.insight_b]) Stub.topic []
       = Ret ([(S i, ValidatorAgent.mark false 5%Q
                       ValidatorAgent.all_challenged best)], events).
Proof.
  destruct (terminal_fallback Stub.py_str Stub.json_loads Stub.search_one
              Stub.llm_rejects Stub.topic []
              [Stub.insight_a; Stub.insight_b]) as [_ H]; [discriminate|].
  destruct H as (i & best & events & Hn & _ & _ & Hv & _).
  - intros [|[|i]] d Hd; try (now destruct i); injection Hd as <-;
      eexists; reflexivity.
  - repeat constructor.
  - now exists i, best, events.
Defined.



(** ** The search query of the validator *)

Lemma filter_filter {A} (f g : A -> bool) (l : list A) :
  filter f (filter g l) = filter (fun x => g x && f x) l.
Proof.
  induction l as [|x l IH]; [reflexivity|]. cbn [filter].
  destruct (g x); cbn [filter andb]; [destruct (f x)|]; now rewrite IH.
Qed.

(** C7, amended. The search query of the validator is: title, one space
    and gap text concatenated, the first 150 characters kept, lowercased,
    split on whitespace, every token of at most 4 characters and every
    filler word dropped, the first 5 remaining tokens kept, the topic
    appended, all joined by single spaces. *)
Theorem search_query_spaced (py_str : json -> str) (title gap topic : str) :
  ValidatorAgent._extract_search_keywords py_str (JStr gap) (JStr title) topic
  = ValidatorAgent.spaced_query title gap topic.
Proof.
  unfold ValidatorAgent._extract_search_keywords, ValidatorAgent.spaced_query.
  cbn [to_str app]. rewrite filter_filter. do 3 f_equal.
  apply filter_ext. intros w. f_equal.
  now rewrite Nat.ltb_antisym.
Qed.

(** C7 as stated fails: title and gap text are not concatenated as they
    are, a space separates them, so the last word of the title and the
    first word of the gap stay two tokens. *)
Lemma search_query_joins_with_space :
  ValidatorAgent._extract_search_keywords Stub.py_str (JStr (py "betas"))
    (JStr (py "alpha")) (py "ml") = py "alpha betas ml"
  /\ ValidatorAgent.claimed_query (py "alpha") (py "betas") (py "ml")
     = py "alphabetas ml"
  /\ ValidatorAgent._extract_search_keywords Stub.py_str (JStr (py "betas"))
       (JStr (py "alpha")) (py "ml")
     <> ValidatorAgent.claimed_query (py "alpha") (py "betas") (py "ml").
Proof. repeat split; try reflexivity. discriminate. Qed.

(** ** The log of the orchestrator *)

Section PipelineFacts.

Import Arxiv ResearchAgent.

Variable Payload : Type.
Variable analyze_papers : list Paper -> str -> str -> Exc dict.
Variable critique : list Paper -> dict -> str -> str -> Exc dict.
Variable synthesize : list Paper -> dict -> dict -> str -> str -> Exc (list json).
Variable validate : list json -> str -> str -> Exc (list dict).
Variable research_intelligence :
  option (str -> list Paper -> list Paper -> Exc (str * json)).
Variable random_sample : nat -> nat -> nat -> list nat.
Variable analyzer_payload : dict -> list Paper -> Exc Payload.
Variable skeptic_payload : dict -> dict -> Exc Payload.
Variable synthesizer_payload : list dict -> Exc Payload.
Variable validator_payload : list dict -> list dict -> Exc Payload.

Local Abbreviation analyzer_entry := (mkLogEntry 1 (py "Analyzer") [] (py "observation")).
Local Abbreviation skeptic_entry :=
  (mkLogEntry 2 (py "Skeptic") [py "Analyzer"] (py "challenge")).
Local Abbreviation synthesizer_entry :=
  (mkLogEntry 3 (py "Synthesizer") [py "Analyzer"; py "Skeptic"] (py "synthesis")).
Local Abbreviation validator_entry :=
  (mkLogEntry 4 (py "Validator") [py "Synthesizer"] (py "validation")).

Local Abbreviation run_analyzer := (analyzer_stage analyze_papers analyzer_payload).
Local Abbreviation run_skeptic := (skeptic_stage critique skeptic_payload).
Local Abbreviation run_synthesizer :=
  (synthesizer_stage synthesize synthesizer_payload).
Local Abbreviation run_validator := (validator_stage validate validator_payload).
Local Abbreviation run :=
  (generate_insights analyze_papers critique synthesize validate
     research_intelligence random_sample analyzer_payload skeptic_payload
     synthesizer_payload validator_payload).

Lemma and_then_ret {A B} (m : M Payload A) (k : A -> M Payload B) self r self' :
  and_then m k self = (Ret r, self') ->
  exists a s, m self = (Ret a, s) /\ k a s = (Ret r, self').
Proof.
  unfold and_then. destruct (m self) as [[a|e] s]; [|discriminate].
  intros H. now exists a, s.
Qed.

(** A stage that succeeds appends one entry, the one of its turn. *)
Lemma analyzer_stage_appends papers topic self r self' :
  run_analyzer papers topic self = (Ret r, self') ->
  exists rest, conversation_log self'
               = conversation_log self ++ [analyzer_entry rest].
Proof.
  unfold analyzer_stage, and_then, read_field_context, lift, append_entry, ret.
  destruct (analyze_papers _ _ _) as [a|]; [|discriminate].
  destruct (analyzer_payload _ _) as [rest|]; [|discriminate].
  intros [= _ <-]. now exists rest.
Qed.

Lemma skeptic_stage_appends papers topic a self r self' :
  run_skeptic papers topic a self = (Ret r, self') ->
  exists rest, conversation_log self'
               = conversation_log self ++ [skeptic_entry rest].
Proof.
  unfold skeptic_stage, and_then, read_field_context, lift, append_entry, ret.
  destruct (critique _ _ _ _) as [c|]; [|discriminate].
  destruct (skeptic_payload _ _) as [rest|]; [|discriminate].
  intros [= _ <-]. now exists rest.
Qed.

Lemma synthesizer_stage_appends papers topic a c self r self' :
  run_synthesizer papers topic a c self = (Ret r, self') ->
  exists rest, conversation_log self'
               = conversation_log self ++ [synthesizer_entry rest].
Proof.
  unfold synthesizer_stage, and_then, read_field_context, lift, append_entry, ret.
  destruct (synthesize _ _ _ _ _) as [i|]; [|discriminate].
  destruct (synthesizer_payload _) as [rest|]; [|discriminate].
  intros [= _ <-]. now exists rest.
Qed.

Lemma validator_stage_appends topic insights self r self' :
  run_validator topic insights self = (Ret r, self') ->
  exists rest, conversation_log self'
               = conversation_log self ++ [validator_entry rest].
Proof.
  unfold validator_stage, and_then, read_field_context, lift, append_entry, ret.
  destruct (validate _ _ _) as [v|]; [|discriminate].
  destruct (validator_payload _ _) as [rest|]; [|discriminate].
  intros [= _ <-]. now exists rest.
Qed.

Lemma intelligence_keeps_log papers topic (self : State Payload) :
  exists self', intelligence research_intelligence random_sample papers topic self
                = (Ret tt, self')
                /\ conversation_log self' = conversation_log self.
Proof.
  unfold intelligence. destruct research_intelligence as [generate|];
    [|now exists self].
  destruct topic as [|c topic]; [now exists self|].
  destruct (generate _ _ _) as [[context data]|]; eexists; split; reflexivity.
Qed.

(** C8. Whatever the log held before, after a run of [generate_insights]
    that succeeds it holds exactly four entries, of turns 1 to 4, of
    agents Analyzer, Skeptic, Synthesizer, Validator, each responding to
    the agents whose output it used; and each stage that succeeds
    appends exactly one entry, the one of its turn. *)
Theorem pipeline_turn_ordering (papers : list Paper) (topic : str)
    (self : State Payload) (result : list dict) (self' : State Payload) :
  run papers topic self = (Ret result, self') ->
  (exists r1 r2 r3 r4,
     conversation_log self'
     = [analyzer_entry r1; skeptic_entry r2; synthesizer_entry r3;
        validator_entry r4])
  /\ map (@turn Payload) (conversation_log self') = [1; 2; 3; 4]%Z
  /\ map (@agent Payload) (conversation_log self')
     = [py "Analyzer"; py "Skeptic"; py "Synthesizer"; py "Validator"]
  /\ map (@responding_to Payload) (conversation_log self')
     = [[]; [py "Analyzer"]; [py "Analyzer"; py "Skeptic"]; [py "Synthesizer"]]
  /\ (forall s r s',
        run_analyzer papers topic s = (Ret r, s') ->
        exists rest, conversation_log s' = conversation_log s ++ [analyzer_entry rest])
  /\ (forall a s r s',
        run_skeptic papers topic a s = (Ret r, s') ->
        exists rest, conversation_log s' = conversation_log s ++ [skeptic_entry rest])
  /\ (forall a c s r s',
        run_synthesizer papers topic a c s = (Ret r, s') ->
        exists rest,
          conversation_log s' = conversation_log s ++ [synthesizer_entry rest])
  /\ (forall insights s r s',
        run_validator topic insights s = (Ret r, s') ->
        exists rest,
          conversation_log s' = conversation_log s ++ [validator_entry rest]).
Proof.
  intros Hrun.
  assert (Hlog : exists r1 r2 r3 r4,
            conversation_log self'
            = [analyzer_entry r1; skeptic_entry r2; synthesizer_entry r3;
               validator_entry r4]).
  { unfold generate_insights in Hrun.
    apply and_then_ret in Hrun as ([] & s0 & H0 & Hrun).
    injection H0 as <-.
    apply and_then_ret in Hrun as ([] & s0' & Hi & Hrun).
    destruct (intelligence_keeps_log papers topic
                (mkState [] (field_context self)
                   (research_intelligence_data self)))
      as (s0'' & Hi' & H0).
    rewrite Hi' in Hi. injection Hi as ->. cbn [conversation_log] in H0.
    apply and_then_ret in Hrun as (a & s1 & E1 & Hrun).
    apply analyzer_stage_appends in E1 as [r1 H1].
    apply and_then_ret in Hrun as (c & s2 & E2 & Hrun).
    apply skeptic_stage_appends in E2 as [r2 H2].
    apply and_then_ret in Hrun as (i & s3 & E3 & Hrun).
    apply synthesizer_stage_appends in E3 as [r3 H3].
    apply validator_stage_appends in Hrun as [r4 H4].
    exists r1, r2, r3, r4. rewrite H4, H3, H2, H1, H0. reflexivity. }
  split; [exact Hlog|].
  destruct Hlog as (r1 & r2 & r3 & r4 & ->).
  split; [reflexivity|]. split; [reflexivity|]. split; [reflexivity|].
  split; [intros s r s'; apply analyzer_stage_appends|].
  split; [intros a s r s'; apply skeptic_stage_appends|].
  split; [intros a c s r s'; apply synthesizer_stage_appends|].
  intros insights s r s'. apply validator_stage_appends.
Qed.

End PipelineFacts.

(** A run with agents that return at once, from a log that already holds
    an entry. *)
Lemma pipeline_turn_ordering_witness :
  map (@ResearchAgent.turn unit)
      (ResearchAgent.conversation_log
         (snd (ResearchAgent.generate_insights Stub.analyze_papers
                 Stub.critique Stub.synthesize Stub.validate None
                 Stub.random_sample (fun _ _ => Ret tt) (fun _ _ => Ret tt)
                 (fun _ => Ret tt) (fun _ _ => Ret tt) [Stub.paper] Stub.topic
                 (ResearchAgent.mkState
                    [ResearchAgent.mkLogEntry 4 (py "Validator") []
                       (py "validation") tt] [] JNull))))
  = [1; 2; 3; 4]%Z.
Proof.
  exact (proj1 (proj2 (pipeline_turn_ordering unit Stub.analyze_papers
           Stub.critique Stub.synthesize Stub.validate None
           Stub.random_sample (fun _ _ => Ret tt) (fun _ _ => Ret tt)
           (fun _ => Ret tt) (fun _ _ => Ret tt) [Stub.paper] Stub.topic
           _ _ _ eq_refl))).
Defined.

(** ** The paper search client *)

Section ArxivFacts.

Import Arxiv.

Variable fetch : str -> Z -> Exc (list Entry).

Lemma entry_papers_cases entry t a :
  e_title entry = Some t -> e_summary entry = Some a ->
  let published := match e_published entry with
                   | Some p => p
                   | None => Some []
                   end in
  let parsed := if nonempty published && (4 <=? List.length (text_of published))
                then py_int (firstn 4 (text_of published)) else Ret 2024%Z in
  entry_papers entry
  = match parsed with
    | Ret y =>
        [mkPaper (if nonempty t then strip (text_of t) else py "Untitled")
           (if nonempty a then strip (text_of a)
            else py "No abstract available.")
           (flat_map (fun name => match name with
                                  | Some (Some ((_ :: _) as x)) => [x]
                                  | _ => []
                                  end) (e_authors entry))
           y
           (match e_id entry with Some x => x | None => Some [] end)]
    | Raise _ => []
    end.
Proof.
  intros Ht Ha. unfold entry_papers, parse_entry. rewrite Ht, Ha. cbv zeta.
  destruct (e_published entry) as [[[|c p]|]|]; cbn [nonempty text_of andb].
  - destruct t as [[|? ?]|], a as [[|? ?]|]; reflexivity.
  - destruct (4 <=? List.length (c :: p));
      [destruct (py_int _)|]; destruct t as [[|? ?]|], a as [[|? ?]|]; reflexivity.
  - destruct t as [[|? ?]|], a as [[|? ?]|]; reflexivity.
  - destruct t as [[|? ?]|], a as [[|? ?]|]; reflexivity.
Qed.

(** C10, amended. [search_arxiv] never raises and returns the empty
    list when the feed has no entry or the request fails.  An entry that
    lacks the title element or the summary element is skipped; an entry
    that has both and is kept has the title [Untitled] when its title has
    no text and the fixed placeholder as abstract when its summary has no
    text.  When the published text has at least four characters, the year
    is the integer they spell, and the entry is skipped when they spell
    none. *)
Theorem search_arxiv_defaults (query : str) (max_results : Z) :
  (exists papers, search_arxiv fetch query max_results = Ret papers)
  /\ (fetch query (Z.min max_results 100) = Ret []
      \/ (exists e, fetch query (Z.min max_results 100) = Raise e) ->
      search_arxiv fetch query max_results = Ret [])
  /\ (forall entries,
        fetch query (Z.min max_results 100) = Ret entries ->
        search_arxiv fetch query max_results
        = Ret (slice_to max_results (flat_map entry_papers entries)))
  /\ (forall entry,
        e_title entry = None \/ e_summary entry = None ->
        entry_papers entry = [])
  /\ (forall entry t a p,
        e_title entry = Some t -> e_summary entry = Some a ->
        In p (entry_papers entry) ->
        entry_papers entry = [p]
        /\ title p = (if nonempty t then strip (text_of t) else py "Untitled")
        /\ abstract p = (if nonempty a then strip (text_of a)
                         else py "No abstract available."))
  /\ (forall entry t a published,
        e_title entry = Some t -> e_summary entry = Some a ->
        e_published entry = Some (Some published) ->
        4 <= List.length published ->
        match py_int (firstn 4 published) with
        | Ret y => exists p, entry_papers entry = [p] /\ year p = y
        | Raise _ => entry_papers entry = []
        end).
Proof.
  split.
  { unfold search_arxiv. destruct (fetch _ _); cbn; now eexists. }
  split.
  { unfold search_arxiv. intros [-> | [e ->]]; [|reflexivity].
    cbn [bind catch flat_map]. unfold slice_to.
    destruct (0 <=? max_results)%Z; now rewrite firstn_nil. }
  split.
  { unfold search_arxiv. now intros entries ->. }
  split.
  { intros entry H. unfold entry_papers, parse_entry.
    destruct H as [-> | H]; [reflexivity|]. rewrite H.
    now destruct (e_title entry). }
  split.
  { intros entry t a p Ht Ha. rewrite (entry_papers_cases entry t a Ht Ha).
    cbv zeta. destruct (if _ && _ then _ else _) as [y|]; [|intros []].
    intros [<-|[]]. now repeat split. }
  intros entry t a published Ht Ha Hp Hlen.
  rewrite (entry_papers_cases entry t a Ht Ha). cbv zeta. rewrite Hp.
  cbn [text_of]. apply Nat.leb_le in Hlen. rewrite Hlen.
  destruct published as [|c published]; [discriminate|]. cbn [nonempty andb].
  destruct (py_int _) as [y|]; [|reflexivity]. now eexists.
Qed.

End ArxivFacts.

(** An entry whose title and summary have no text. *)
Lemma search_arxiv_defaults_witness :
  exists p, Arxiv.entry_papers Stub.entry_bare = [p]
            /\ Arxiv.title p = py "Untitled"
            /\ Arxiv.abstract p = py "No abstract available.".
Proof.
  eexists. split; [reflexivity|].
  exact (proj2 (proj1 (proj2 (proj2 (proj2 (proj2
    (search_arxiv_defaults (fun _ _ => Ret []) [] 5%Z)))))
    Stub.entry_bare None None _ eq_refl eq_refl (or_introl eq_refl))).
Defined.

(** C10 as stated fails: an entry without a title element yields no
    paper at all, and so does an entry whose published text starts with
    no number. *)
Lemma missing_title_is_skipped :
  Arxiv.e_title Stub.entry_without_title = None
  /\ Arxiv.search_arxiv (fun _ _ => Ret [Stub.entry_without_title]) (py "q") 5%Z
     = Ret []
  /\ Arxiv.search_arxiv (fun _ _ => Ret [Stub.entry_with_bad_year]) (py "q") 5%Z
     = Ret [].
Proof. repeat split. Qed.

(** ** The titles of the synthesizer *)

Section SynthesizerFacts.

Import Arxiv SynthesizerAgent.

Variable py_str : json -> str.
Variable json_loads : str -> Exc json.
Variable llm_call : Prompt -> str.
Variable em_dash : str.

Lemma map_exc_length {A B} (f : A -> Exc B) l l' :
  map_exc f l = Ret l' -> List.length l' = List.length l.
Proof.
  revert l'. induction l as [|x l IH]; intros l'; cbn [map_exc].
  - now intros [= <-].
  - destruct (f x) as [y|]; [|discriminate]. cbn [bind].
    destruct (map_exc f l) as [ys|]; [|discriminate]. cbn [bind].
    intros [= <-]. cbn [List.length]. now rewrite (IH ys).
Qed.

Lemma enumerate_length {A} (l : list A) start :
  List.length (enumerate start l) = List.length l.
Proof.
  revert start. induction l as [|x l IH]; intros start; [reflexivity|].
  cbn [enumerate List.length]. now rewrite IH.
Qed.

Lemma map_fst_combine {A B} (l : list A) (l' : list B) :
  List.length l' = List.length l -> map fst (combine l l') = l.
Proof.
  revert l'. induction l as [|x l IH]; intros [|y l'] H; try discriminate;
    [reflexivity|]. cbn [combine map fst]. injection H as H. now rewrite IH.
Qed.

Lemma ensure_fields_title i insight :
  dict_find (py "title") (ensure_fields i insight)
  = Some (settled_title i insight).
Proof.
  unfold ensure_fields, settled_title, dict_has.
  set (d1 := if match dict_find (py "title") insight with
                | Some _ => true | None => false end
             then insight else _).
  assert (H1 : dict_find (py "title") d1
               = Some match dict_find (py "title") insight with
                      | Some t => t
                      | None => JStr (py "Research Insight " ++ show_nat (i + 1))
                      end).
  { unfold d1. destruct (dict_find (py "title") insight) eqn:E; [exact E|].
    now rewrite dict_find_set. }
  clearbody d1. rewrite <- H1.
  repeat match goal with
         | |- context [if ?b then ?d else dict_set ?k ?v ?d] =>
             let d' := fresh "d" in
             let H := fresh "H" in
             assert (H : dict_find (py "title") (if b then d else dict_set k v d)
                         = dict_find (py "title") d)
               by (destruct b; [reflexivity|now rewrite dict_find_set]);
             rewrite H; clear H
         end.
  reflexivity.
Qed.

Lemma promote_title item :
  dict_find (py "title") (promote item) = Some (JStr (firstn 100 item)).
Proof.
  unfold promote. cbn [dict_find]. rewrite str_eqb_refl. do 2 f_equal.
  destruct (100 <? List.length item) eqn:E; [reflexivity|].
  apply Nat.ltb_ge in E. symmetry. now apply firstn_all2.
Qed.

Lemma extension_title_complete p :
  exists prefix, extension_title p = prefix ++ paper_title p.
Proof.
  unfold extension_title. fold (paper_title p).
  destruct (80 <? List.length (paper_title p)); eexists; reflexivity.
Qed.

Lemma generic_fallback_titles papers :
  map (dict_find (py "title")) (_create_generic_fallback papers)
  = map (fun p => Some (JStr (extension_title p))) (firstn 3 papers).
Proof.
  unfold _create_generic_fallback. rewrite map_map. apply map_ext.
  intros p. cbn [dict_find]. now rewrite str_eqb_refl.
Qed.

Lemma titles_after_messages (insights : list dict) (messages : list json) :
  List.length messages = List.length insights ->
  map (dict_find (py "title"))
      (map (fun im : dict * json =>
              dict_set (py "dialogue_message") (snd im) (fst im))
           (combine insights messages))
  = map (dict_find (py "title")) insights.
Proof.
  revert messages. induction insights as [|d insights IH];
    intros [|m messages] H; try discriminate; [reflexivity|].
  injection H as H. cbn [combine map fst snd]. rewrite (IH _ H).
  now rewrite dict_find_set.
Qed.

(** The last steps of [handle_result] keep the titles of the insights
    they receive. *)
Lemma titles_after_fields (insights : list dict) messages :
  List.length messages = List.length insights ->
  map (dict_find (py "title"))
      (map (fun im : dict * json =>
              dict_set (py "dialogue_message") (snd im) (fst im))
           (combine (map (fun ii : nat * dict => ensure_fields (fst ii) (snd ii))
                         (enumerate 0 insights)) messages))
  = map (fun ii => Some (settled_title (fst ii) (snd ii))) (enumerate 0 insights).
Proof.
  intros Hlen. rewrite titles_after_messages
    by (now rewrite length_map, enumerate_length).
  rewrite map_map. apply map_ext. intros [i d]. apply ensure_fields_title.
Qed.

(** What [handle_result] returns is the list it settled on, with the
    required fields and the messages. *)
Lemma handle_result_titles papers gaps result out :
  handle_result py_str em_dash papers gaps result = Ret out ->
  exists insights,
    map (dict_find (py "title")) out
    = map (fun ii => Some (settled_title (fst ii) (snd ii))) (enumerate 0 insights)
    /\ (kept_insights result <> [] -> insights = kept_insights result)
    /\ (kept_insights result = [] ->
        _create_fallback_insights py_str papers gaps = Ret [] ->
        insights = _create_generic_fallback papers).
Proof.
  unfold handle_result.
  set (chosen := match kept_insights result with
                 | [] => _create_fallback_insights py_str papers gaps
                 | _ :: _ => Ret (kept_insights result)
                 end).
  destruct chosen as [first|] eqn:Ec; [|discriminate]. cbn [bind].
  set (insights := match first with
                   | [] => _create_generic_fallback papers
                   | _ :: _ => first
                   end).
  set (fielded := map (fun ii : nat * dict => ensure_fields (fst ii) (snd ii))
                      (enumerate 0 insights)).
  destruct (if truthy (offered_messages result) then _ else _) as [given|];
    [|discriminate].
  cbn [bind].
  destruct (if given then _ else _) as [messages|] eqn:Em; [|discriminate].
  cbn [bind]. intros [= <-].
  assert (Hlen : List.length messages = List.length insights).
  { destruct given; apply map_exc_length in Em; rewrite Em; unfold fielded;
      now rewrite ?enumerate_length, ?length_map, ?enumerate_length. }
  exists insights. split; [now apply titles_after_fields|]. split.
  - intros Hne. unfold insights. unfold chosen in Ec.
    destruct (kept_insights result) as [|k ks]; [congruence|].
    now injection Ec as <-.
  - intros Hk Hf. unfold insights. unfold chosen in Ec. rewrite Hk, Hf in Ec.
    now injection Ec as <-.
Qed.

Lemma generic_fallback_settled papers start :
  map (fun ii : nat * dict => Some (settled_title (fst ii) (snd ii)))
      (enumerate start (_create_generic_fallback papers))
  = map (fun p => Some (JStr (extension_title p))) (firstn 3 papers).
Proof.
  unfold _create_generic_fallback. revert start.
  induction (firstn 3 papers) as [|p ps IH]; intros start; [reflexivity|].
  cbn [map enumerate fst snd]. rewrite IH. reflexivity.
Qed.

(** C9, amended. The titles of the insights that [synthesize] returns
    are: for the insights kept from the answer, the title each mapping
    came with (a numbered default when it came with none) and, for an
    element that was a bare string, the first 100 characters of the
    string, with no ellipsis; for the generic fallback, a fixed prefix
    followed by the whole title of the paper.  Only the gap fallback
    appends an ellipsis. *)
Theorem titles_are_kept (papers : list Paper) (gaps result : json)
    (out : list dict) :
  handle_result py_str em_dash papers gaps result = Ret out ->
  (kept_insights result <> [] ->
   map (dict_find (py "title")) out
   = map (fun ii => Some (settled_title (fst ii) (snd ii)))
         (enumerate 0 (kept_insights result)))
  /\ (kept_insights result = [] ->
      _create_fallback_insights py_str papers gaps = Ret [] ->
      map (dict_find (py "title")) out
      = map (fun p => Some (JStr (extension_title p))) (firstn 3 papers))
  /\ (forall d items, clean_items (JObj d :: items) = d :: clean_items items)
  /\ (forall item items,
        clean_items (JStr item :: items) = promote item :: clean_items items)
  /\ (forall item,
        dict_find (py "title") (promote item) = Some (JStr (firstn 100 item)))
  /\ (forall p, exists prefix, extension_title p = prefix ++ paper_title p)
  /\ (forall analyzer_output skeptic_output topic field_context insights,
        synthesize py_str json_loads llm_call em_dash papers analyzer_output
          skeptic_output topic field_context = Ret insights ->
        exists gaps' result',
          handle_result py_str em_dash papers gaps' result' = Ret insights).
Proof.
  intros Hout.
  destruct (handle_result_titles papers gaps result out Hout)
    as (insights & Ht & Hkept & Hgen).
  split; [intros Hne; now rewrite Ht, (Hkept Hne)|].
  split; [intros Hk Hf; rewrite Ht, (Hgen Hk Hf); apply generic_fallback_settled|].
  split; [reflexivity|]. split; [reflexivity|].
  split; [apply promote_title|]. split; [apply extension_title_complete|].
  intros analyzer_output skeptic_output topic field_context synthesized.
  unfold synthesize.
  destruct (get_of _ "cross_paper_gaps" _) as [gaps'|]; [|discriminate].
  cbn [bind]. destruct (slice_items 5 gaps'); [|discriminate]. cbn [bind].
  destruct (map_exc _ _); [|discriminate]. cbn [bind].
  destruct (get_of _ "contradictions" _); [|discriminate]. cbn [bind].
  destruct (slice_items 3 _); [|discriminate]. cbn [bind].
  destruct (map_exc _ _); [|discriminate]. cbn [bind].
  destruct (LLM.extract_json _ _) as [result'|]; [|discriminate]. cbn [bind].
  intros H. now exists gaps', result'.
Qed.

End SynthesizerFacts.

(** The answer with one bare string of 101 characters. *)
Lemma titles_are_kept_witness :
  exists out,
    SynthesizerAgent.handle_result Stub.py_str [] [] (JArr [])
      (JArr [JStr SynthesizerAgent.long_item]) = Ret out
    /\ map (dict_find (py "title")) out
       = [Some (JStr (firstn 100 SynthesizerAgent.long_item))].
Proof.
  eexists. split; [reflexivity|].
  refine (proj1 (titles_are_kept Stub.py_str Stub.json_loads Stub.llm_bare_string
                   [] [] (JArr []) (JArr [JStr SynthesizerAgent.long_item])
                   _ eq_refl) _).
  discriminate.
Defined.

(** C9 as stated fails: promoted to a record, a bare string of 101
    characters gets a title of 100 characters. *)
Lemma bare_string_title_is_cut :
  exists insight,
    SynthesizerAgent.synthesize Stub.py_str Stub.json_loads Stub.llm_bare_string
      [] [Stub.paper] [] [] Stub.topic [] = Ret [insight]
    /\ dict_find (py "title") insight = Some (JStr (repeat "a" 100))
    /\ dict_find (py "observation") insight
       = Some (JStr SynthesizerAgent.long_item)
    /\ List.length (repeat "a"%char 100)
       < List.length SynthesizerAgent.long_item.
Proof.
  eexists. split; [vm_compute; reflexivity|].
  split; [reflexivity|]. split; [reflexivity|]. vm_compute. lia.
Qed.
